(** * TrackRec: the task query and statistics service

    A shallow embedding of [server/src/services/taskServices.ts] together
    with the schema of [server/src/models/taskModel.ts] and the request
    types of [server/src/types/task.ts], followed by the properties of the
    service that the specification states.  The controllers that call the
    service, and the parts of the client that build its requests and hold
    its answers, are embedded after it, with properties of their own.

    Conventions of the embedding.
    - Time stamps are milliseconds since the epoch, in [Z]; a JavaScript
      [Date] is a time value or the invalid date (time value NaN).
    - Every evaluation of [new Date()] / [Date.now] is a separate argument
      of the operation that performs it, so no statement silently assumes
      that two readings of the clock agree.
    - A collection is the list of its documents in insertion order.
    - An operation returns its result (a value or the error it throws)
      paired with the collection it leaves behind.
    - Strings are sequences of one-byte characters; case folding and
      white space are the ASCII ones. *)

From Stdlib Require Import ZArith List String Ascii Bool Lia.
From Stdlib Require Import Sorting.Sorted Sorting.Permutation.
From Stdlib Require Import DecimalString.
Import ListNotations.

Local Open Scope string_scope.
Local Open Scope Z_scope.

(** ** JavaScript values that reach the service *)

(** A [Date] object: [new Date(x).getTime()] is a number or NaN. *)
Inductive DateObj : Type :=
| ValidDate (ms : Z)
| InvalidDate.

(** What the [dueDate] key of a request body can hold.  The server types
    declare it as [Date], the client types as [string]; a JSON body can
    also carry [null].  A missing key reads as [undefined]. *)
Inductive DueInput : Type :=
| DueUndefined
| DueNull
| DueString (s : string)
| DueDate (d : DateObj).

(** JavaScript truthiness, as used by [taskdata.dueDate && ...] and
    [taskdata.dueDate ? ... : undefined]. *)
Definition truthyString (s : string) : bool :=
  negb (String.eqb s "").

Definition truthyDue (v : DueInput) : bool :=
  match v with
  | DueUndefined => false
  | DueNull => false
  | DueString s => truthyString s
  | DueDate _ => true
  end.

(** [a <= b] on two [Date] objects compares their time values; any
    comparison with NaN is false. *)
Definition date_le (a : DateObj) (now : Z) : bool :=
  match a with
  | ValidDate t => t <=? now
  | InvalidDate => false
  end.

(** ** Strings: trimming, case folding, identifiers *)

Definition isWhitespace (c : ascii) : bool :=
  let n := nat_of_ascii c in
  (Nat.eqb n 32 || (Nat.leb 9 n && Nat.leb n 13))%bool.

Fixpoint trimStart (l : list ascii) : list ascii :=
  match l with
  | [] => []
  | c :: r => if isWhitespace c then trimStart r else l
  end.

Definition trimChars (l : list ascii) : list ascii :=
  rev (trimStart (rev (trimStart l))).

(** [String.prototype.trim], the setter behind the schema's [trim: true]. *)
Definition trim (s : string) : string :=
  string_of_list_ascii (trimChars (list_ascii_of_string s)).

Definition toLower (c : ascii) : ascii :=
  let n := nat_of_ascii c in
  if (Nat.leb 65 n && Nat.leb n 90)%bool then ascii_of_nat (n + 32) else c.

Definition isHexDigit (c : ascii) : bool :=
  let n := nat_of_ascii c in
  ((Nat.leb 48 n && Nat.leb n 57)
   || (Nat.leb 97 n && Nat.leb n 102)
   || (Nat.leb 65 n && Nat.leb n 70))%bool.

(** [id.match(/^[0-9a-fA-F]{24}$/)] is non-null: exactly 24 characters,
    all hexadecimal digits. *)
Definition isValidId (id : string) : bool :=
  (Nat.eqb (String.length id) 24
   && forallb isHexDigit (list_ascii_of_string id))%bool.

(** The store keeps identifiers as ObjectIds: [findById] and its kin cast
    the string they are given, and a hexadecimal digit denotes the same
    value in either case.  Two strings name the same ObjectId when their
    lower-case spellings agree. *)
Definition lowerString (s : string) : string :=
  string_of_list_ascii (map toLower (list_ascii_of_string s)).

Definition objectIdOf (id : string) : string := lowerString id.

Definition sameObjectId (a b : string) : bool :=
  String.eqb (objectIdOf a) (objectIdOf b).

Arguments sameObjectId : simpl never.

(** ** Regular expressions of the search filter

    [$regex: filters.search, $options: 'i'] hands the search string to the
    store as a regular expression.  The patterns made of ordinary
    characters and the wildcard [.] are matched here; a pattern that uses
    any other metacharacter is handed to the store's engine, which is a
    parameter of the listing: it gives the matcher of the pattern, or
    nothing when the string is not a regular expression. *)

(** The store's engine on a pattern, case ignored: the subjects the
    pattern matches, or [None] when the store refuses the pattern. *)
Definition RegexEngine : Type := string -> option (string -> bool).

Definition regexOperators : list ascii :=
  ["\"; "^"; "$"; "*"; "+"; "?"; "("; ")"; "["; "]"; "{"; "}"; "|"]%char.

Definition isRegexOperator (c : ascii) : bool :=
  existsb (Ascii.eqb c) regexOperators.

Definition isDot (c : ascii) : bool := Ascii.eqb c "."%char.

Definition isNewline (c : ascii) : bool := Nat.eqb (nat_of_ascii c) 10.

(** One pattern character against one subject character, ignoring case. *)
Definition charMatches (p c : ascii) : bool :=
  if isDot p then negb (isNewline c)
  else Ascii.eqb (toLower p) (toLower c).

(** The pattern matches a prefix of the subject. *)
Fixpoint matchHere (p s : list ascii) : bool :=
  match p, s with
  | [], _ => true
  | _ :: _, [] => false
  | pc :: p', c :: s' => (charMatches pc c && matchHere p' s')%bool
  end.

(** An unanchored pattern matches when it matches at some offset. *)
Fixpoint matchAnywhere (p s : list ascii) : bool :=
  match s with
  | [] => matchHere p []
  | _ :: s' => (matchHere p s || matchAnywhere p s')%bool
  end.

(** Case-insensitive substring containment, as the specification words
    the search filter: some window of [t] equals [s] up to case. *)
Definition containsCI (s t : string) : Prop :=
  exists pre post : list ascii,
    map toLower (list_ascii_of_string t)
    = (pre ++ map toLower (list_ascii_of_string s) ++ post)%list.

(** ** The Task document (taskModel.ts, types/task.ts) *)

Record Task : Type := mkTask {
  _id : string;
  title : string;
  description : option string;
  isCompleted : bool;
  priority : string;
  dueDate : option Z;
  tags : list string;
  createdAt : Z;
  updatedAt : Z
}.

Definition Store : Type := list Task.

(** [CreateTaskRequest]. *)
Record CreateTaskRequest : Type := mkCreate {
  c_title : string;
  c_description : option string;
  c_priority : option string;
  c_dueDate : DueInput;
  c_tags : option (list string)
}.

(** [UpdateTaskRequest extends Partial<CreateTaskRequest>]. *)
Record UpdateTaskRequest : Type := mkUpdate {
  p_title : option string;
  p_description : option string;
  p_priority : option string;
  p_dueDate : DueInput;
  p_tags : option (list string);
  p_isCompleted : option bool
}.

(** The patch [{}]. *)
Definition emptyPatch : UpdateTaskRequest :=
  mkUpdate None None None DueUndefined None None.

(** ** Errors and results *)

Inductive Error : Type :=
| InvalidTaskIdFormat                  (* Error('Invalid task ID format') *)
| DueDateMustBeFuture                  (* Error('Due date must be in the future') *)
| ValidationError (paths : list string) (* mongoose ValidationError, failing paths *)
| CastError (path : string)            (* mongoose CastError on an update *)
| DuplicateKey                         (* the store's unique index on _id *)
| InvalidRegex.                        (* the store refuses the $regex pattern *)

Inductive Result (A : Type) : Type :=
| Ok (a : A)
| Err (e : Error).

Arguments Ok {A} a.
Arguments Err {A} e.

(** ** The store: the mongoose model [Task] over its collection

    Only the calls the service makes are modelled.  What mongoose does with
    them is taken from its documented behaviour (version 6 and later):
    - an update whose keys are not operators is applied as a [$set];
    - keys holding [undefined] are removed from an update before it is
      sent, and are not set on a new document;
    - setters ([trim]) run on new documents and on updates;
    - [runValidators: true] validates the paths an update sets, and only
      those, before the update is sent; [save] validates the document;
    - casting an invalid date fails. *)

Inductive StoreCall : Type :=
| CallFind
| CallFindById
| CallSave
| CallFindByIdAndUpdate
| CallFindByIdAndDelete
| CallCountDocuments.

(** The filter object handed to [find] and [countDocuments]; a key that is
    not set does not constrain the result. *)
Record Query : Type := mkQuery {
  q_isCompleted : option bool;   (* isCompleted: b *)
  q_priority : option string;    (* priority: p *)
  q_search : option string;      (* $or: [ {title: {$regex, 'i'}}, {description: {$regex, 'i'}} ] *)
  q_dueBefore : option Z         (* dueDate: { $lt: d, $exists: true } *)
}.

Definition emptyQuery : Query := mkQuery None None None None.

Definition inFragment (pattern : string) : bool :=
  negb (existsb isRegexOperator (list_ascii_of_string pattern)).

(** [{$regex: pattern, $options: 'i'}] on a string field, for a pattern of
    the modelled fragment. *)
Definition regexSearchI (pattern subject : string) : bool :=
  matchAnywhere (list_ascii_of_string pattern) (list_ascii_of_string subject).

(** A missing field does not match a [$regex]. *)
Definition regexSearchOpt (pattern : string) (subject : option string) : bool :=
  match subject with
  | Some s => regexSearchI pattern s
  | None => false
  end.

Definition matchesQuery (q : Query) (t : Task) : bool :=
  (match q_isCompleted q with
   | Some b => Bool.eqb (isCompleted t) b
   | None => true
   end
   && match q_priority q with
      | Some p => String.eqb (priority t) p
      | None => true
      end
   && match q_search q with
      | Some pat => regexSearchI pat (title t) || regexSearchOpt pat (description t)
      | None => true
      end
   && match q_dueBefore q with
      | Some d => match dueDate t with
                  | Some due => due <? d
                  | None => false
                  end
      | None => true
      end)%bool.

Definition queryInFragment (q : Query) : bool :=
  match q_search q with
  | Some pat => inFragment pat
  | None => true
  end.

(** [.sort({createdAt: -1})]: newest first.  The store leaves the order of
    documents with equal keys open; here they keep their collection order. *)
Fixpoint insertByCreatedAtDesc (t : Task) (l : list Task) : list Task :=
  match l with
  | [] => [t]
  | x :: r => if createdAt x <=? createdAt t then t :: x :: r
              else x :: insertByCreatedAtDesc t r
  end.

Fixpoint sortByCreatedAtDesc (l : list Task) : list Task :=
  match l with
  | [] => []
  | t :: r => insertByCreatedAtDesc t (sortByCreatedAtDesc r)
  end.

(** The query without its [$or] of [$regex] conditions. *)
Definition withoutSearch (q : Query) : Query :=
  mkQuery (q_isCompleted q) (q_priority q) None (q_dueBefore q).

(** The query whose search pattern the store's engine compiled to the
    matcher [m], on the title or the description. *)
Definition matchesCompiled (m : string -> bool) (q : Query) (t : Task) : bool :=
  (matchesQuery (withoutSearch q) t
   && (m (title t)
       || match description t with
          | Some d => m d
          | None => false
          end))%bool.

(** [Task.find(query).sort({createdAt: -1})].  A search pattern of the
    fragment is matched by [matchesQuery]; any other is compiled by the
    store's engine, and the query fails when the engine refuses it. *)
Definition Task_find_sorted (Regex_engine : RegexEngine) (q : Query) (st : Store)
    : Result (list Task) :=
  if queryInFragment q
  then Ok (sortByCreatedAtDesc (filter (matchesQuery q) st))
  else
    match q_search q with
    | Some pat =>
        match Regex_engine pat with
        | Some m => Ok (sortByCreatedAtDesc (filter (matchesCompiled m q) st))
        | None => Err InvalidRegex
        end
    | None => Ok (sortByCreatedAtDesc (filter (matchesQuery q) st))
    end.

(** [Task.countDocuments(query)], for the queries of [getTaskStats]. *)
Definition Task_countDocuments (q : Query) (st : Store) : Z :=
  Z.of_nat (List.length (filter (matchesQuery q) st)).

(** [Task.findById(id)]. *)
Definition Task_findById (id : string) (st : Store) : option Task :=
  find (fun t => sameObjectId (_id t) id) st.

(** [Task.findByIdAndDelete(id)]: the removed document, if any, and the
    collection without it. *)
Fixpoint Task_findByIdAndDelete (id : string) (st : Store) : option Task * Store :=
  match st with
  | [] => (None, [])
  | t :: r =>
      if sameObjectId (_id t) id then (Some t, r)
      else let (res, r') := Task_findByIdAndDelete id r in (res, t :: r')
  end.

(** *** Schema validators (taskModel.ts) *)

Definition priorityValues : list string := ["low"; "medium"; "high"].

(** [required: true] and [maxlength: 200], on the trimmed title. *)
Definition validTitle (s : string) : bool :=
  (negb (String.eqb s "") && Nat.leb (String.length s) 200)%bool.

(** [maxlength: 1000]. *)
Definition validDescription (s : string) : bool :=
  Nat.leb (String.length s) 1000.

(** [enum: ['low', 'medium', 'high']]. *)
Definition validPriority (p : string) : bool :=
  existsb (String.eqb p) priorityValues.

(** [validator: date => date > new Date()]. *)
Definition validDueDate (due now : Z) : bool := now <? due.

Definition failing (path : string) (ok : bool) : list string :=
  if ok then [] else [path].

Definition checkOpt {A : Type} (path : string) (valid : A -> bool)
    (v : option A) : list string :=
  match v with
  | Some a => failing path (valid a)
  | None => []
  end.

(** *** Updates *)

(** The object handed to [findByIdAndUpdate].  [None] is a key that is
    missing or holds [undefined]; the service always sets [updatedAt]. *)
Record UpdateDoc : Type := mkUpdateDoc {
  u_title : option string;
  u_description : option string;
  u_priority : option string;
  u_dueDate : option DateObj;
  u_tags : option (list string);
  u_isCompleted : option bool;
  u_updatedAt : Z
}.

(** The update after casting: strings trimmed, the date a time value. *)
Record CastUpdate : Type := mkCastUpdate {
  s_title : option string;
  s_description : option string;
  s_priority : option string;
  s_dueDate : option Z;
  s_tags : option (list string);
  s_isCompleted : option bool;
  s_updatedAt : Z
}.

Definition castUpdate (u : UpdateDoc) : Result CastUpdate :=
  let cast (due : option Z) :=
    mkCastUpdate (option_map trim (u_title u))
                 (option_map trim (u_description u))
                 (u_priority u)
                 due
                 (option_map (map trim) (u_tags u))
                 (u_isCompleted u)
                 (u_updatedAt u) in
  match u_dueDate u with
  | None => Ok (cast None)
  | Some (ValidDate t) => Ok (cast (Some t))
  | Some InvalidDate => Err (CastError "dueDate")
  end.

(** Update validators: the paths of the update that fail; [t_valid] is the
    clock reading of the [dueDate] validator. *)
Definition updateFailures (t_valid : Z) (s : CastUpdate) : list string :=
  (checkOpt "title" validTitle (s_title s)
   ++ checkOpt "description" validDescription (s_description s)
   ++ checkOpt "priority" validPriority (s_priority s)
   ++ checkOpt "dueDate" (fun d => validDueDate d t_valid) (s_dueDate s))%list.

Definition orElse {A : Type} (v : option A) (old : A) : A :=
  match v with
  | Some a => a
  | None => old
  end.

(** [$set] of the cast update on one document. *)
Definition applyUpdate (s : CastUpdate) (t : Task) : Task :=
  mkTask (_id t)
         (orElse (s_title s) (title t))
         (match s_description s with
          | Some d => Some d
          | None => description t
          end)
         (orElse (s_isCompleted s) (isCompleted t))
         (orElse (s_priority s) (priority t))
         (match s_dueDate s with
          | Some d => Some d
          | None => dueDate t
          end)
         (orElse (s_tags s) (tags t))
         (createdAt t)
         (s_updatedAt s).

Fixpoint updateById (id : string) (f : Task -> Task) (st : Store)
    : option Task * Store :=
  match st with
  | [] => (None, [])
  | t :: r =>
      if sameObjectId (_id t) id then (Some (f t), f t :: r)
      else let (res, r') := updateById id f r in (res, t :: r')
  end.

(** [Task.findByIdAndUpdate(id, update, { new: true, runValidators: true })]:
    the updated document or [null]; a cast or validation error leaves the
    collection as it is. *)
Definition Task_findByIdAndUpdate (id : string) (u : UpdateDoc) (t_valid : Z)
    (st : Store) : Result (option Task) * Store :=
  match castUpdate u with
  | Err e => (Err e, st)
  | Ok s =>
      match updateFailures t_valid s with
      | [] => let (res, st') := updateById id (applyUpdate s) st in (Ok res, st')
      | paths => (Err (ValidationError paths), st)
      end
  end.

(** *** New documents *)

(** The object handed to [new Task(...)]. *)
Record TaskInit : Type := mkTaskInit {
  i_title : string;
  i_description : option string;
  i_priority : option string;
  i_dueDate : option DateObj;
  i_tags : option (list string)
}.

(** Validation of a new document: the failing paths.  An invalid date
    fails the cast of [dueDate], which [save] reports with the rest. *)
Definition saveFailures (t_valid : Z) (i : TaskInit) : list string :=
  (failing "title" (validTitle (trim (i_title i)))
   ++ checkOpt "description" validDescription (option_map trim (i_description i))
   ++ checkOpt "priority" validPriority (i_priority i)
   ++ match i_dueDate i with
      | None => []
      | Some (ValidDate d) => failing "dueDate" (validDueDate d t_valid)
      | Some InvalidDate => ["dueDate"]
      end)%list.

(** The document [new Task(init)] once saved: setters and defaults applied
    ([isCompleted] false, [priority] medium, [tags] empty, [createdAt] the
    reading of [Date.now] at construction), [updatedAt] set by the
    [pre('save')] hook.  [oid] is the identifier generated for it. *)
Definition newTask (oid : string) (t_created t_save : Z) (i : TaskInit) : Task :=
  mkTask oid
         (trim (i_title i))
         (option_map trim (i_description i))
         false
         (orElse (i_priority i) "medium")
         (match i_dueDate i with
          | Some (ValidDate d) => Some d
          | _ => None
          end)
         (map trim (orElse (i_tags i) []))
         t_created
         t_save.

(** [new Task(init).save()]. *)
Definition Task_save (oid : string) (t_created t_valid t_save : Z)
    (i : TaskInit) (st : Store) : Result Task * Store :=
  match saveFailures t_valid i with
  | [] =>
      match Task_findById oid st with
      | Some _ => (Err DuplicateKey, st)
      | None =>
          let doc := newTask oid t_created t_save i in
          (Ok doc, (st ++ [doc])%list)
      end
  | paths => (Err (ValidationError paths), st)
  end.

(** ** The service (taskServices.ts) *)

(** What a call of the service leaves behind: its result, the collection,
    and the store calls it issued, in order. *)
Record Outcome (A : Type) : Type := mkOutcome {
  result : Result A;
  store : Store;
  calls : list StoreCall
}.

Arguments mkOutcome {A} result store calls.
Arguments result {A} o.
Arguments store {A} o.
Arguments calls {A} o.

(** The [filters] argument of [getAllTasks]. *)
Record Filters : Type := mkFilters {
  f_isCompleted : option bool;
  f_priority : option string;
  f_search : option string
}.

Definition noFilters : Filters := mkFilters None None None.

Definition truthyOptString (v : option string) : bool :=
  match v with
  | Some s => truthyString s
  | None => false
  end.

Record TaskStats : Type := mkStats {
  total : Z;
  completed : Z;
  pending : Z;
  overdue : Z
}.

Section Service.

(** [new Date(s)] for a string [s]: the date it parses to, or the invalid
    date.  Which strings parse is left to the JavaScript engine. *)
Variable Date_parse : string -> DateObj.

(** The store's regular-expression engine, for the search patterns beyond
    the fragment. *)
Variable Regex_engine : RegexEngine.

(** [new Date(v)]; the service evaluates it on truthy values only. *)
Definition newDate (v : DueInput) : DateObj :=
  match v with
  | DueUndefined => InvalidDate
  | DueNull => ValidDate 0
  | DueString s => Date_parse s
  | DueDate d => d
  end.

(** [v && new Date(v) <= new Date()], with [t_check] the clock reading. *)
Definition dueNotInFuture (v : DueInput) (t_check : Z) : bool :=
  (truthyDue v && date_le (newDate v) t_check)%bool.

(** [v ? new Date(v) : undefined]. *)
Definition convertDue (v : DueInput) : option DateObj :=
  if truthyDue v then Some (newDate v) else None.

Definition getAllTasks (filters : Filters) (st : Store) : Outcome (list Task) :=
  let query := emptyQuery in
  let query :=
    match f_isCompleted filters with
    | Some b => mkQuery (Some b) (q_priority query) (q_search query) (q_dueBefore query)
    | None => query
    end in
  let query :=
    if truthyOptString (f_priority filters)
    then mkQuery (q_isCompleted query) (f_priority filters) (q_search query) (q_dueBefore query)
    else query in
  let query :=
    if truthyOptString (f_search filters)
    then mkQuery (q_isCompleted query) (q_priority query) (f_search filters) (q_dueBefore query)
    else query in
  mkOutcome (Task_find_sorted Regex_engine query st) st [CallFind].

Definition getTaskById (id : string) (st : Store) : Outcome (option Task) :=
  if negb (isValidId id) then mkOutcome (Err InvalidTaskIdFormat) st []
  else mkOutcome (Ok (Task_findById id st)) st [CallFindById].

(** Clock readings, in the order they are taken: [t_check] by the
    service's comparison, [t_created] by the [createdAt] default,
    [t_valid] by the schema validator, [t_save] by the [pre('save')]
    hook.  [oid] is the identifier generated for the new document. *)
Definition createTask (t_check : Z) (oid : string) (t_created t_valid t_save : Z)
    (taskdata : CreateTaskRequest) (st : Store) : Outcome Task :=
  if dueNotInFuture (c_dueDate taskdata) t_check
  then mkOutcome (Err DueDateMustBeFuture) st []
  else
    let task := mkTaskInit (c_title taskdata)
                           (c_description taskdata)
                           (c_priority taskdata)
                           (convertDue (c_dueDate taskdata))
                           (c_tags taskdata) in
    let (res, st') := Task_save oid t_created t_valid t_save task st in
    mkOutcome res st' [CallSave].

(** Clock readings: [t_check] by the service's comparison, [t_stamp] by
    [updatedAt: new Date()], [t_valid] by the schema validator. *)
Definition updateTask (t_check t_stamp t_valid : Z) (id : string)
    (updates : UpdateTaskRequest) (st : Store) : Outcome (option Task) :=
  if negb (isValidId id) then mkOutcome (Err InvalidTaskIdFormat) st []
  else if dueNotInFuture (p_dueDate updates) t_check
  then mkOutcome (Err DueDateMustBeFuture) st []
  else
    let updateData := mkUpdateDoc (p_title updates)
                                  (p_description updates)
                                  (p_priority updates)
                                  (convertDue (p_dueDate updates))
                                  (p_tags updates)
                                  (p_isCompleted updates)
                                  t_stamp in
    let (res, st') := Task_findByIdAndUpdate id updateData t_valid st in
    mkOutcome res st' [CallFindByIdAndUpdate].

Definition deleteTask (id : string) (st : Store) : Outcome bool :=
  if negb (isValidId id) then mkOutcome (Err InvalidTaskIdFormat) st []
  else
    let (res, st') := Task_findByIdAndDelete id st in
    mkOutcome (Ok (match res with Some _ => true | None => false end)) st'
              [CallFindByIdAndDelete].

(** [now] is the reading of [new Date()] in the overdue query; the four
    counts see the same collection. *)
Definition getTaskStats (now : Z) (st : Store) : Outcome TaskStats :=
  let total := Task_countDocuments emptyQuery st in
  let completed := Task_countDocuments (mkQuery (Some true) None None None) st in
  let pending := Task_countDocuments (mkQuery (Some false) None None None) st in
  let overdue := Task_countDocuments (mkQuery (Some false) None None (Some now)) st in
  mkOutcome (Ok (mkStats total completed pending overdue)) st
            [CallCountDocuments; CallCountDocuments; CallCountDocuments; CallCountDocuments].

Definition markTaskCompleted (t_check t_stamp t_valid : Z) (id : string)
    (st : Store) : Outcome (option Task) :=
  updateTask t_check t_stamp t_valid id
             (mkUpdate None None None DueUndefined None (Some true)) st.


Definition getCompletedTasks (st : Store) : Outcome (list Task) :=
  getAllTasks (mkFilters (Some true) None None) st.

Definition getPendingTasks (st : Store) : Outcome (list Task) :=
  getAllTasks (mkFilters (Some false) None None) st.

End Service.

(** ** A small collection used by the examples below *)

(** The dates the examples parse; every other string is not a date. *)
Definition exampleParse (s : string) : DateObj :=
  if String.eqb s "2030-01-01T00:00:00.000Z" then ValidDate 1893456000000
  else if String.eqb s "2020-01-01T00:00:00.000Z" then ValidDate 1577836800000
  else InvalidDate.

(** The engine of the examples: it knows the alternatives [a|b|...] of
    patterns of the fragment and refuses every other pattern. *)
Fixpoint splitOnBar (l : list ascii) : list (list ascii) :=
  match l with
  | [] => [[]]
  | c :: r =>
      if Ascii.eqb c "|"%char then [] :: splitOnBar r
      else match splitOnBar r with
           | b :: bs => (c :: b) :: bs
           | [] => [[c]]
           end
  end.

Definition exampleRegex : RegexEngine :=
  fun pattern =>
    let branches := splitOnBar (list_ascii_of_string pattern) in
    if forallb (fun b => negb (existsb isRegexOperator b)) branches
    then Some (fun subject =>
                 existsb (fun b => matchAnywhere b (list_ascii_of_string subject))
                         branches)
    else None.

Definition idA : string := "64b7f0c2a1d3e4f5a6b7c8d9".
Definition idB : string := "64b7f0c2a1d3e4f5a6b7c8da".
Definition idAbsent : string := "ffffffffffffffffffffffff".

Definition taskA : Task :=
  mkTask idA "Pay rent" None false "high" (Some 5000) [] 1000 1000.

Definition taskB : Task :=
  mkTask idB "a" None true "medium" None [] 2000 2500.

Definition exampleStore : Store := [taskA; taskB].

(** ** Notions the statements use *)

(** The order of a listing: the earlier task is at least as new. *)
Definition newerFirst (a b : Task) : Prop := createdAt b <= createdAt a.

(** The counting predicates, as the specification words them. *)
Definition isPending (t : Task) : bool := negb (isCompleted t).

Definition isOverdue (now : Z) (t : Task) : bool :=
  (negb (isCompleted t)
   && match dueDate t with
      | Some due => due <? now
      | None => false
      end)%bool.

Definition countIf (f : Task -> bool) (st : Store) : Z :=
  Z.of_nat (List.length (filter f st)).


(** The query [getAllTasks] builds from its filters. *)
Definition queryOf (f : Filters) : Query :=
  mkQuery (f_isCompleted f)
          (if truthyOptString (f_priority f) then f_priority f else None)
          (if truthyOptString (f_search f) then f_search f else None)
          None.

(** The search string, if any, is a pattern of the modelled fragment. *)
Definition filtersInFragment (f : Filters) : bool :=
  match f_search f with
  | Some pat => inFragment pat
  | None => true
  end.

(** The search string, if any, is a regular expression the store accepts:
    a pattern of the fragment, or one its engine compiles. *)
Definition filtersAccepted (Regex_engine : RegexEngine) (f : Filters) : bool :=
  match f_search f with
  | Some pat =>
      (inFragment pat
       || match Regex_engine pat with
          | Some _ => true
          | None => false
          end)%bool
  | None => true
  end.

(** A search string without any regular-expression metacharacter. *)
Definition isLiteralPattern (s : string) : bool :=
  forallb (fun c => negb (isRegexOperator c || isDot c))
          (list_ascii_of_string s).

(** The task's title or description contains [s], ignoring case. *)
Definition titleOrDescriptionContains (s : string) (t : Task) : Prop :=
  containsCI s (title t)
  \/ exists d, description t = Some d /\ containsCI s d.

(** The object [updateTask] hands to [findByIdAndUpdate]. *)
Definition updateDataOf (Date_parse : string -> DateObj) (t_stamp : Z)
    (updates : UpdateTaskRequest) : UpdateDoc :=
  mkUpdateDoc (p_title updates)
              (p_description updates)
              (p_priority updates)
              (convertDue Date_parse (p_dueDate updates))
              (p_tags updates)
              (p_isCompleted updates)
              t_stamp.

(** The patch passes every check on its way to the collection: the
    service's due-date comparison, the cast of the update, and the update
    validators. *)
Definition patchAccepted (Date_parse : string -> DateObj)
    (t_check t_stamp t_valid : Z) (updates : UpdateTaskRequest) : bool :=
  (negb (dueNotInFuture Date_parse (p_dueDate updates) t_check)
   && match castUpdate (updateDataOf Date_parse t_stamp updates) with
      | Ok s => match updateFailures t_valid s with
                | [] => true
                | _ :: _ => false
                end
      | Err _ => false
      end)%bool.

(** The time a [dueDate] value denotes, if it denotes one: a valid [Date],
    or a non-empty string that parses to one.  The empty string is not a
    date ([new Date('')] is the invalid date), nor is [null]. *)
Definition dueTime (Date_parse : string -> DateObj) (v : DueInput) : option Z :=
  match v with
  | DueDate (ValidDate d) => Some d
  | DueString s =>
      if truthyString s
      then match Date_parse s with
           | ValidDate d => Some d
           | InvalidDate => None
           end
      else None
  | _ => None
  end.

(** The task with another [updatedAt] and every other field as it is. *)
Definition withUpdatedAt (t : Task) (stamp : Z) : Task :=
  mkTask (_id t) (title t) (description t) (isCompleted t) (priority t)
         (dueDate t) (tags t) (createdAt t) stamp.

Definition withCreateDue (req : CreateTaskRequest) (v : DueInput) : CreateTaskRequest :=
  mkCreate (c_title req) (c_description req) (c_priority req) v (c_tags req).

Definition withPatchDue (patch : UpdateTaskRequest) (v : DueInput) : UpdateTaskRequest :=
  mkUpdate (p_title patch) (p_description patch) (p_priority patch) v
           (p_tags patch) (p_isCompleted patch).

(** The patch [{ isCompleted: false }]. *)
Definition pendingPatch : UpdateTaskRequest :=
  mkUpdate None None None DueUndefined None (Some false).

(** ** Further service functions and notions *)

(** [getTasksByPriority(priority)] is [getAllTasks({ priority })]. *)
Definition getTasksByPriority (Regex_engine : RegexEngine) (priority : string)
    (st : Store) : Outcome (list Task) :=
  getAllTasks Regex_engine (mkFilters None (Some priority) None) st.

(** The object [createTask] hands to [new Task(...)]. *)
Definition taskInitOf (Date_parse : string -> DateObj)
    (taskdata : CreateTaskRequest) : TaskInit :=
  mkTaskInit (c_title taskdata)
             (c_description taskdata)
             (c_priority taskdata)
             (convertDue Date_parse (c_dueDate taskdata))
             (c_tags taskdata).

(** No two documents of the collection share an identifier. *)
Definition uniqueIds (st : Store) : Prop := NoDup (map _id st).

(** No two documents of the collection share an ObjectId. *)
Definition uniqueObjectIds (st : Store) : Prop :=
  NoDup (map (fun t => objectIdOf (_id t)) st).

(** The field constraints of the schema, on a stored task. *)
Definition satisfiesSchema (t : Task) : bool :=
  (validTitle (title t)
   && match description t with
      | Some d => validDescription d
      | None => true
      end
   && validPriority (priority t))%bool.

(** [updatedAt] is not before [createdAt]. *)
Definition stampsOrdered (t : Task) : Prop := createdAt t <= updatedAt t.

(** The task with another completion state and [updatedAt]. *)
Definition withCompletion (t : Task) (b : bool) (stamp : Z) : Task :=
  mkTask (_id t) (title t) (description t) b (priority t)
         (dueDate t) (tags t) (createdAt t) stamp.

(** The statistics a successful [getTaskStats] returns. *)
Definition statsOf (now : Z) (st : Store) : TaskStats :=
  mkStats (countIf (fun _ => true) st)
          (countIf isCompleted st)
          (countIf isPending st)
          (countIf (isOverdue now) st).

Definition boolZ (b : bool) : Z := if b then 1 else 0.

(** ** The controllers (controllers/taskController.ts)

    A controller reads the request, calls the service and either writes a
    JSON response or hands the error it caught to [next]. *)

(** A value of [req.query]: missing, a string, or anything else (an array
    for a repeated parameter, an object for a bracketed one). *)
Inductive QueryValue : Type :=
| QUndefined
| QString (s : string)
| QOther.

Record ReqQuery : Type := mkReqQuery {
  rq_completed : QueryValue;
  rq_priority : QueryValue;
  rq_search : QueryValue
}.

(** [ApiResponse<T>]; an optional key that is not set is [None]. *)
Record ApiResponse (A : Type) : Type := mkApiResponse {
  success : bool;
  data : option A;
  error : option string;
  message : option string
}.

Arguments mkApiResponse {A} success data error message.
Arguments success {A} a.
Arguments data {A} a.
Arguments error {A} a.
Arguments message {A} a.

Inductive Reply (A : Type) : Type :=
| Respond (status : Z) (body : ApiResponse A)  (* res.status(status).json(body) *)
| Next (e : Error).                            (* next(error) *)

Arguments Respond {A} status body.
Arguments Next {A} e.

(** [`${n}`] for a length. *)
Definition showNat (n : nat) : string :=
  NilEmpty.string_of_uint (Nat.to_uint n).

(** [typeof v === 'string' ? v : undefined]. *)
Definition stringOrUndefined (v : QueryValue) : option string :=
  match v with
  | QString s => Some s
  | _ => None
  end.

(** [v === 'true' ? true : v === 'false' ? false : undefined]. *)
Definition completedOf (v : QueryValue) : option bool :=
  match v with
  | QString s =>
      if String.eqb s "true" then Some true
      else if String.eqb s "false" then Some false
      else None
  | _ => None
  end.

(** The filters [getAllTasksController] extracts from the query string. *)
Definition filtersOfQuery (q : ReqQuery) : Filters :=
  mkFilters (completedOf (rq_completed q))
            (stringOrUndefined (rq_priority q))
            (stringOrUndefined (rq_search q)).

Definition getAllTasksController (Regex_engine : RegexEngine) (q : ReqQuery)
    (st : Store) : Reply (list Task) * Store :=
  let filters := filtersOfQuery q in
  let o := getAllTasks Regex_engine filters st in
  match result o with
  | Ok tasks =>
      (Respond 200
         (mkApiResponse true (Some tasks) None
            (Some ("Found " ++ showNat (List.length tasks) ++ " tasks"))),
       store o)
  | Err e => (Next e, store o)
  end.

Definition notFoundBody {A : Type} : ApiResponse A :=
  mkApiResponse false None (Some "Task not found") None.

Definition getTaskByIdController (id : string) (st : Store)
    : Reply Task * Store :=
  let o := getTaskById id st in
  match result o with
  | Ok None => (Respond 404 notFoundBody, store o)
  | Ok (Some task) => (Respond 200 (mkApiResponse true (Some task) None None), store o)
  | Err e => (Next e, store o)
  end.

Definition deleteTaskController (id : string) (st : Store)
    : Reply unit * Store :=
  let o := deleteTask id st in
  match result o with
  | Ok false => (Respond 404 notFoundBody, store o)
  | Ok true =>
      (Respond 200
         (mkApiResponse true None None (Some "Task deleted successfully")),
       store o)
  | Err e => (Next e, store o)
  end.

Definition getTaskStatsController (now : Z) (st : Store)
    : Reply TaskStats * Store :=
  let o := getTaskStats now st in
  match result o with
  | Ok stats => (Respond 200 (mkApiResponse true (Some stats) None None), store o)
  | Err e => (Next e, store o)
  end.

Section Controllers.

Variable Date_parse : string -> DateObj.

Definition createTaskController (t_check : Z) (oid : string)
    (t_created t_valid t_save : Z) (body : CreateTaskRequest) (st : Store)
    : Reply Task * Store :=
  let o := createTask Date_parse t_check oid t_created t_valid t_save body st in
  match result o with
  | Ok task =>
      (Respond 201
         (mkApiResponse true (Some task) None (Some "Task created successfully")),
       store o)
  | Err e => (Next e, store o)
  end.

Definition updateTaskController (t_check t_stamp t_valid : Z) (id : string)
    (body : UpdateTaskRequest) (st : Store) : Reply Task * Store :=
  let o := updateTask Date_parse t_check t_stamp t_valid id body st in
  match result o with
  | Ok None => (Respond 404 notFoundBody, store o)
  | Ok (Some task) =>
      (Respond 200
         (mkApiResponse true (Some task) None (Some "Task updated successfully")),
       store o)
  | Err e => (Next e, store o)
  end.

End Controllers.

(** ** The client: request building (client/src/services/task.services.ts) *)

(** [b.toString()]. *)
Definition boolToString (b : bool) : string := if b then "true" else "false".

(** The entries [taskService.getTasks] appends to its [URLSearchParams],
    in order.  [None] is a call without filters. *)
Definition getTasksParams (filters : option Filters) : list (string * string) :=
  let isCompleted := match filters with Some f => f_isCompleted f | None => None end in
  let priority := match filters with Some f => f_priority f | None => None end in
  let search := match filters with Some f => f_search f | None => None end in
  (match isCompleted with
   | Some b => [("completed", boolToString b)]
   | None => []
   end
   ++ (if truthyOptString priority then [("priority", orElse priority "")] else [])
   ++ (if truthyOptString search then [("search", orElse search "")] else []))%list.

(** What the server's query parser makes of a query string with these
    entries: a key that occurs once is a string, a key that occurs more
    often an array, a key that does not occur is missing. *)
Definition queryValueOf (key : string) (entries : list (string * string)) : QueryValue :=
  match filter (fun e => String.eqb (fst e) key) entries with
  | [] => QUndefined
  | [e] => QString (snd e)
  | _ :: _ :: _ => QOther
  end.

Definition reqQueryOfParams (entries : list (string * string)) : ReqQuery :=
  mkReqQuery (queryValueOf "completed" entries)
             (queryValueOf "priority" entries)
             (queryValueOf "search" entries).

(** ** The client: the task store (client/src/stores/task-store.ts) *)

(** The client's [Task]. *)
Record ClientTask : Type := mkClientTask {
  ct_id : string;
  ct_userId : string;
  ct_title : string;
  ct_description : option string;
  ct_isCompleted : bool;
  ct_priority : string;
  ct_dueDate : option string;
  ct_tags : option (list string);
  ct_createdAt : string;
  ct_updatedAt : string
}.

(** A JavaScript [Set] of strings: its elements in insertion order. *)
Definition setHas (x : string) (s : list string) : bool :=
  existsb (String.eqb x) s.

(** [s.add(x)]. *)
Definition setAdd (s : list string) (x : string) : list string :=
  if setHas x s then s else (s ++ [x])%list.

(** [new Set(iterable)]. *)
Definition newSet (l : list string) : list string := fold_left setAdd l [].

(** [s.delete(x)]. *)
Definition setDelete (x : string) (s : list string) : list string :=
  filter (fun y => negb (String.eqb y x)) s.

(** [TaskState]. *)
Record TaskState : Type := mkTaskState {
  ts_tasks : list ClientTask;
  ts_selectedTasks : list string;
  ts_filters : Filters;
  ts_stats : option TaskStats;
  ts_isLoading : bool;
  ts_error : option string
}.

(** The state the store starts in. *)
Definition initialTaskState : TaskState :=
  mkTaskState [] (newSet []) noFilters None false None.

Definition withTasks (s : TaskState) (tasks : list ClientTask) : TaskState :=
  mkTaskState tasks (ts_selectedTasks s) (ts_filters s) (ts_stats s)
              (ts_isLoading s) (ts_error s).

Definition withSelection (s : TaskState) (sel : list string) : TaskState :=
  mkTaskState (ts_tasks s) sel (ts_filters s) (ts_stats s)
              (ts_isLoading s) (ts_error s).

(** [{ ...task, isCompleted: !task.isCompleted }]. *)
Definition toggled (t : ClientTask) : ClientTask :=
  mkClientTask (ct_id t) (ct_userId t) (ct_title t) (ct_description t)
               (negb (ct_isCompleted t)) (ct_priority t) (ct_dueDate t)
               (ct_tags t) (ct_createdAt t) (ct_updatedAt t).

(** The state update of [toggleTaskOptimistic(id)], before it syncs with
    the server. *)
Definition toggleTaskOptimistic_set (id : string) (s : TaskState) : TaskState :=
  withTasks s (map (fun task => if String.eqb (ct_id task) id then toggled task
                                else task)
                   (ts_tasks s)).

(** [selectTask(id)]. *)
Definition selectTask (id : string) (s : TaskState) : TaskState :=
  withSelection s (newSet (ts_selectedTasks s ++ [id])).

(** [deselectTask(id)]. *)
Definition deselectTask (id : string) (s : TaskState) : TaskState :=
  let newSelection := newSet (ts_selectedTasks s) in
  withSelection s (setDelete id newSelection).

(** [clearSelection()]. *)
Definition clearSelection (s : TaskState) : TaskState :=
  withSelection s (newSet []).

(** The state after [updateTask(id, input)] once the server has answered
    with [updatedTask]. *)
Definition updateTask_resolved (id : string) (updatedTask : ClientTask)
    (s : TaskState) : TaskState :=
  mkTaskState (map (fun task => if String.eqb (ct_id task) id then updatedTask
                                else task)
                   (ts_tasks s))
              (ts_selectedTasks s) (ts_filters s) (ts_stats s)
              (ts_isLoading s) None.

(** The state after [deleteTask(id)] once the server has answered. *)
Definition deleteTask_resolved (id : string) (s : TaskState) : TaskState :=
  mkTaskState (filter (fun task => negb (String.eqb (ct_id task) id)) (ts_tasks s))
              (newSet (filter (fun taskId => negb (String.eqb taskId id))
                              (ts_selectedTasks s)))
              (ts_filters s) (ts_stats s) (ts_isLoading s) None.

(** ** The client: views (pages/TaskList.tsx, components/task/TaskCard.tsx) *)

(** The predicate of [filteredTasks] in the task list page. *)
Definition keepsTask (filters : Filters) (task : ClientTask) : bool :=
  if (match f_isCompleted filters with
      | Some b => negb (Bool.eqb (ct_isCompleted task) b)
      | None => false
      end)
  then false
  else if (truthyOptString (f_priority filters)
           && negb (String.eqb (ct_priority task) (orElse (f_priority filters) "")))%bool
  then false
  else true.

Definition filteredTasks (filters : Filters) (tasks : list ClientTask)
    : list ClientTask :=
  filter (keepsTask filters) tasks.

(** [a < b] on two [Date] objects; false when either is invalid. *)
Definition date_lt (a : DateObj) (now : Z) : bool :=
  match a with
  | ValidDate t => t <? now
  | InvalidDate => false
  end.

(** [isOverdue] of the task card, as a truth value:
    [task.dueDate && new Date(task.dueDate) < new Date() && !task.isCompleted]. *)
Definition cardIsOverdue (Date_parse : string -> DateObj) (now : Z)
    (task : ClientTask) : bool :=
  (match ct_dueDate task with
   | Some s => truthyString s && date_lt (Date_parse s) now
   | None => false
   end
   && negb (ct_isCompleted task))%bool.

(** The client task shows the stored task: same completion state, same
    priority, and a due-date string that parses to the stored due date. *)
Definition showsTask (Date_parse : string -> DateObj) (t : Task) (c : ClientTask)
    : Prop :=
  ct_isCompleted c = isCompleted t
  /\ ct_priority c = priority t
  /\ match dueDate t with
     | Some d => exists s, ct_dueDate c = Some s
                           /\ s <> ""
                           /\ Date_parse s = ValidDate d
     | None => ct_dueDate c = None
     end.

(** The example collection as the client holds it. *)
Definition exampleClientParse (s : string) : DateObj :=
  if String.eqb s "1970-01-01T00:00:05.000Z" then ValidDate 5000 else InvalidDate.

Definition clientTaskA : ClientTask :=
  mkClientTask idA "" "Pay rent" None false "high"
               (Some "1970-01-01T00:00:05.000Z") None
               "1970-01-01T00:00:01.000Z" "1970-01-01T00:00:01.000Z".

Definition clientTaskB : ClientTask :=
  mkClientTask idB "" "a" None true "medium" None None
               "1970-01-01T00:00:02.000Z" "1970-01-01T00:00:02.500Z".
(** ** Lemmas on the store *)

Lemma insertByCreatedAtDesc_perm (t : Task) (l : list Task) :
  Permutation (t :: l) (insertByCreatedAtDesc t l).
Proof.
  induction l as [| x r IH]; simpl.
  - apply Permutation_refl.
  - destruct (createdAt x <=? createdAt t).
    + apply Permutation_refl.
    + eapply perm_trans; [apply perm_swap |].
      apply perm_skip, IH.
Qed.

Lemma sortByCreatedAtDesc_perm (l : list Task) :
  Permutation l (sortByCreatedAtDesc l).
Proof.
  induction l as [| t r IH]; simpl.
  - constructor.
  - eapply perm_trans; [apply perm_skip, IH |].
    apply insertByCreatedAtDesc_perm.
Qed.

Lemma insertByCreatedAtDesc_sorted (t : Task) (l : list Task) :
  StronglySorted newerFirst l ->
  StronglySorted newerFirst (insertByCreatedAtDesc t l).
Proof.
  induction 1 as [| x r Hr IH Hx]; simpl.
  - repeat constructor.
  - destruct (createdAt x <=? createdAt t) eqn:E.
    + apply Z.leb_le in E.
      constructor; [constructor; assumption |].
      constructor; [exact E |].
      rewrite Forall_forall in Hx |- *.
      intros y Hy. specialize (Hx y Hy). unfold newerFirst in *. lia.
    + apply Z.leb_gt in E.
      constructor; [exact IH |].
      rewrite Forall_forall in Hx |- *.
      intros y Hy.
      apply (Permutation_in _ (Permutation_sym (insertByCreatedAtDesc_perm t r))) in Hy.
      destruct Hy as [<- | Hy]; [unfold newerFirst; lia | auto].
Qed.

Lemma sortByCreatedAtDesc_sorted (l : list Task) :
  StronglySorted newerFirst (sortByCreatedAtDesc l).
Proof.
  induction l as [| t r IH]; simpl.
  - constructor.
  - apply insertByCreatedAtDesc_sorted, IH.
Qed.

Lemma sortByCreatedAtDesc_In (l : list Task) (t : Task) :
  In t (sortByCreatedAtDesc l) <-> In t l.
Proof.
  split; intro H.
  - eapply Permutation_in; [apply Permutation_sym, sortByCreatedAtDesc_perm | exact H].
  - eapply Permutation_in; [apply sortByCreatedAtDesc_perm | exact H].
Qed.

(** In a strongly sorted list, an earlier position is related to every
    later one. *)
Lemma StronglySorted_nth_error {A : Type} (R : A -> A -> Prop) (l : list A) :
  StronglySorted R l ->
  forall (i j : nat) (a b : A),
    (i < j)%nat -> nth_error l i = Some a -> nth_error l j = Some b -> R a b.
Proof.
  induction 1 as [| x r Hr IH Hx]; intros i j a b Hij Hi Hj.
  - destruct i; discriminate.
  - destruct j as [| j]; [lia |].
    simpl in Hj.
    destruct i as [| i]; simpl in Hi.
    + injection Hi as <-.
      rewrite Forall_forall in Hx. apply Hx.
      eapply nth_error_In; eassumption.
    + apply (IH i j); [lia | assumption | assumption].
Qed.

Lemma filter_all {A : Type} (f : A -> bool) (l : list A) :
  (forall a, f a = true) -> filter f l = l.
Proof.
  intro H. induction l as [| a r IH]; simpl; [reflexivity |].
  rewrite H, IH. reflexivity.
Qed.

Lemma filter_length_partition {A : Type} (f : A -> bool) (l : list A) :
  (List.length (filter f l) + List.length (filter (fun a => negb (f a)) l)
   = List.length l)%nat.
Proof.
  induction l as [| a r IH]; simpl; [reflexivity |].
  destruct (f a); simpl; lia.
Qed.

Lemma filter_length_le {A : Type} (f g : A -> bool) (l : list A) :
  (forall a, f a = true -> g a = true) ->
  (List.length (filter f l) <= List.length (filter g l))%nat.
Proof.
  intro H. induction l as [| a r IH]; simpl; [lia |].
  destruct (f a) eqn:Ef.
  - rewrite (H a Ef). simpl. lia.
  - destruct (g a); simpl; lia.
Qed.

Lemma filter_ext_eq {A : Type} (f g : A -> bool) (l : list A) :
  (forall a, f a = g a) -> filter f l = filter g l.
Proof.
  intro H. induction l as [| a r IH]; simpl; [reflexivity |].
  rewrite H, IH. reflexivity.
Qed.

Lemma eqb_true_r (b : bool) : Bool.eqb b true = b.
Proof. destruct b; reflexivity. Qed.

Lemma eqb_false_r (b : bool) : Bool.eqb b false = negb b.
Proof. destruct b; reflexivity. Qed.

(** ** Statistics *)

(** C2: on one collection, [getTaskStats] returns [total] = the number of
    tasks, [completed] = the number of completed tasks, [pending] = the
    number of tasks not completed, [overdue] = the number of tasks not
    completed whose due date exists and is strictly before now; and
    [completed + pending = total] and [overdue <= pending].  The call reads
    only: the collection is left as it was. *)
Theorem getTaskStats_counts :
  forall (now : Z) (st : Store),
    exists s : TaskStats,
      result (getTaskStats now st) = Ok s
      /\ store (getTaskStats now st) = st
      /\ total s = Z.of_nat (List.length st)
      /\ completed s = countIf isCompleted st
      /\ pending s = countIf isPending st
      /\ overdue s = countIf (isOverdue now) st
      /\ completed s + pending s = total s
      /\ overdue s <= pending s.
Proof.
  intros now st.
  eexists. split; [reflexivity |]. split; [reflexivity |].
  cbn [total completed pending overdue].
  unfold Task_countDocuments, countIf.
  assert (Hall : filter (matchesQuery emptyQuery) st = st)
    by (apply filter_all; reflexivity).
  assert (Hc : filter (matchesQuery (mkQuery (Some true) None None None)) st
               = filter isCompleted st).
  { apply filter_ext_eq. intro t. unfold matchesQuery. cbn.
    rewrite eqb_true_r. destruct (isCompleted t); reflexivity. }
  assert (Hp : filter (matchesQuery (mkQuery (Some false) None None None)) st
               = filter isPending st).
  { apply filter_ext_eq. intro t. unfold matchesQuery, isPending. cbn.
    rewrite eqb_false_r. destruct (isCompleted t); reflexivity. }
  assert (Ho : filter (matchesQuery (mkQuery (Some false) None None (Some now))) st
               = filter (isOverdue now) st).
  { apply filter_ext_eq. intro t. unfold matchesQuery, isOverdue. cbn.
    rewrite eqb_false_r. destruct (isCompleted t); reflexivity. }
  rewrite Hall, Hc, Hp, Ho.
  repeat split.
  - pose proof (filter_length_partition isCompleted st) as H.
    unfold isPending.
    change (fun a : Task => negb (isCompleted a))
      with (fun t : Task => negb (isCompleted t)) in H.
    lia.
  - apply Nat2Z.inj_le, filter_length_le.
    intros t Ht. unfold isOverdue in Ht. unfold isPending.
    apply andb_true_iff in Ht. tauto.
Qed.

(** ** Listing *)

Lemma getAllTasks_query (rx : RegexEngine) (f : Filters) (st : Store) :
  getAllTasks rx f st = mkOutcome (Task_find_sorted rx (queryOf f) st) st [CallFind].
Proof.
  unfold getAllTasks, queryOf.
  destruct f as [c p s]; cbn [f_isCompleted f_priority f_search].
  destruct c; destruct (truthyOptString p); destruct (truthyOptString s); reflexivity.
Qed.

Lemma queryInFragment_queryOf (f : Filters) :
  filtersInFragment f = true -> queryInFragment (queryOf f) = true.
Proof.
  unfold queryInFragment, queryOf, filtersInFragment. cbn.
  destruct (truthyOptString (f_search f)); [| reflexivity].
  destruct (f_search f); congruence.
Qed.

Lemma getAllTasks_returns (rx : RegexEngine) (f : Filters) (st : Store) :
  filtersInFragment f = true ->
  result (getAllTasks rx f st)
  = Ok (sortByCreatedAtDesc (filter (matchesQuery (queryOf f)) st)).
Proof.
  intro H. rewrite getAllTasks_query. cbn [result].
  unfold Task_find_sorted.
  rewrite (queryInFragment_queryOf f H). reflexivity.
Qed.

Lemma matchesQuery_withoutSearch (q : Query) (t : Task) :
  matchesQuery q t = true -> matchesQuery (withoutSearch q) t = true.
Proof.
  unfold matchesQuery, withoutSearch.
  cbn [q_isCompleted q_priority q_search q_dueBefore].
  rewrite !andb_true_iff. tauto.
Qed.

(** Whatever the search pattern, a listing is the collection filtered by a
    predicate that implies the query's other conditions, then sorted. *)
Lemma getAllTasks_Ok_inv (rx : RegexEngine) (f : Filters) (st : Store)
    (l : list Task) :
  result (getAllTasks rx f st) = Ok l ->
  exists p : Task -> bool,
    l = sortByCreatedAtDesc (filter p st)
    /\ forall t, p t = true -> matchesQuery (withoutSearch (queryOf f)) t = true.
Proof.
  rewrite getAllTasks_query. cbn [result]. unfold Task_find_sorted.
  destruct (queryInFragment (queryOf f)).
  - intro H. injection H as <-. eexists. split; [reflexivity |].
    apply matchesQuery_withoutSearch.
  - destruct (q_search (queryOf f)) as [pat |].
    + destruct (rx pat) as [m |]; [| discriminate].
      intro H. injection H as <-. eexists. split; [reflexivity |].
      intros t Ht. unfold matchesCompiled in Ht.
      apply andb_true_iff in Ht. tauto.
    + intro H. injection H as <-. eexists. split; [reflexivity |].
      apply matchesQuery_withoutSearch.
Qed.

Lemma getAllTasks_accepted (rx : RegexEngine) (f : Filters) (st : Store) :
  filtersAccepted rx f = true -> exists l, result (getAllTasks rx f st) = Ok l.
Proof.
  intro H. rewrite getAllTasks_query. cbn [result]. unfold Task_find_sorted.
  destruct (queryInFragment (queryOf f)) eqn:Hq; [eexists; reflexivity |].
  unfold queryInFragment, queryOf, filtersAccepted in *.
  cbn [q_search] in *.
  destruct (truthyOptString (f_search f)); [| eexists; reflexivity].
  destruct (f_search f) as [pat |]; [| eexists; reflexivity].
  rewrite Hq in H. cbn [orb] in H.
  destruct (rx pat); [eexists; reflexivity | discriminate].
Qed.

(** C4: a completion filter that is present, [false] included, keeps only
    the tasks with that completion state, whatever the other filters;
    [{ isCompleted: b }] alone returns exactly the tasks with that state;
    and no filter at all returns every task. *)
Theorem getAllTasks_completion_filter :
  forall (rx : RegexEngine) (st : Store),
    (forall (f : Filters) (b : bool) (l : list Task),
        f_isCompleted f = Some b ->
        result (getAllTasks rx f st) = Ok l ->
        forall t, In t l -> isCompleted t = b)
    /\ (forall b : bool,
          exists l,
            result (getAllTasks rx (mkFilters (Some b) None None) st) = Ok l
            /\ Permutation (filter (fun t => Bool.eqb (isCompleted t) b) st) l
            /\ (forall t, In t l <-> In t st /\ isCompleted t = b))
    /\ (exists l,
          result (getAllTasks rx noFilters st) = Ok l /\ Permutation st l).
Proof.
  intros rx st. split; [| split].
  - intros f b l Hf Hl t Ht.
    apply getAllTasks_Ok_inv in Hl. destruct Hl as (p & -> & Hp).
    apply sortByCreatedAtDesc_In, filter_In in Ht.
    destruct Ht as [_ Hm]. apply Hp in Hm.
    unfold matchesQuery, withoutSearch, queryOf in Hm. cbn [q_isCompleted] in Hm.
    rewrite Hf in Hm.
    repeat (apply andb_true_iff in Hm; destruct Hm as [Hm _]).
    apply Bool.eqb_prop, Hm.
  - intro b. eexists. split; [apply getAllTasks_returns; reflexivity |].
    assert (E : filter (matchesQuery (queryOf (mkFilters (Some b) None None))) st
                = filter (fun t => Bool.eqb (isCompleted t) b) st).
    { apply filter_ext_eq. intro t. unfold matchesQuery. cbn.
      rewrite !andb_true_r. reflexivity. }
    rewrite E. split; [apply sortByCreatedAtDesc_perm |].
    intro t. rewrite sortByCreatedAtDesc_In, filter_In.
    split; intros [Hin Hb]; (split; [exact Hin |]).
    + apply Bool.eqb_prop, Hb.
    + rewrite Hb. apply Bool.eqb_reflx.
  - eexists. split; [apply getAllTasks_returns; reflexivity |].
    rewrite filter_all by reflexivity.
    apply sortByCreatedAtDesc_perm.
Qed.

(** Pending tasks only: [taskB] is completed and is left out. *)
Lemma getAllTasks_completion_filter_witness :
  result (getAllTasks exampleRegex (mkFilters (Some false) None None) exampleStore) = Ok [taskA]
  /\ isCompleted taskA = false.
Proof.
  split; [reflexivity |].
  apply (proj1 (getAllTasks_completion_filter exampleRegex exampleStore)
               (mkFilters (Some false) None None) false [taskA]);
    [reflexivity | reflexivity | left; reflexivity].
Defined.

(** C9: whatever the filters, the tasks [getAllTasks] returns are ordered
    by [createdAt], newest first: of two positions, the earlier one holds
    the task created no earlier.  A listing is returned for every filter
    whose search string the store accepts as a regular expression, and the
    store's error for every other. *)
Theorem getAllTasks_newest_first :
  forall (rx : RegexEngine) (f : Filters) (st : Store),
    (filtersAccepted rx f = true -> exists l, result (getAllTasks rx f st) = Ok l)
    /\ (filtersAccepted rx f = false ->
        result (getAllTasks rx f st) = Err InvalidRegex)
    /\ (forall l,
          result (getAllTasks rx f st) = Ok l ->
          forall (i j : nat) (ti tj : Task),
            (i < j)%nat ->
            nth_error l i = Some ti ->
            nth_error l j = Some tj ->
            createdAt tj <= createdAt ti).
Proof.
  intros rx f st. split; [| split].
  - apply getAllTasks_accepted.
  - intro H. rewrite getAllTasks_query. cbn [result]. unfold Task_find_sorted.
    unfold filtersAccepted, queryInFragment, queryOf in *. cbn [q_search].
    destruct (f_search f) as [pat |]; [| discriminate H].
    apply orb_false_iff in H. destruct H as [Hfrag Hrx].
    cbn [truthyOptString]. unfold truthyString.
    destruct (String.eqb pat "") eqn:E.
    + apply String.eqb_eq in E. subst pat. discriminate Hfrag.
    + cbn [negb]. rewrite Hfrag.
      destruct (rx pat); [discriminate Hrx | reflexivity].
  - intros l Hl i j ti tj Hij Hi Hj.
    apply getAllTasks_Ok_inv in Hl. destruct Hl as (p & -> & _).
    exact (StronglySorted_nth_error newerFirst _
             (sortByCreatedAtDesc_sorted _) i j ti tj Hij Hi Hj).
Qed.

(** Searching the example collection for [rent|a], a pattern beyond the
    fragment that the example engine compiles, lists [taskB] (created at
    2000) before [taskA] (created at 1000). *)
Lemma getAllTasks_newest_first_witness :
  result (getAllTasks exampleRegex (mkFilters None None (Some "rent|a")) exampleStore)
  = Ok [taskB; taskA]
  /\ createdAt taskA <= createdAt taskB.
Proof.
  split; [reflexivity |].
  apply (proj2 (proj2 (getAllTasks_newest_first exampleRegex
                         (mkFilters None None (Some "rent|a")) exampleStore))
               [taskB; taskA] eq_refl 0%nat 1%nat taskB taskA);
    [lia | reflexivity | reflexivity].
Defined.

(** ** Search *)

Lemma matchHere_literal (p : list ascii) :
  forallb (fun c => negb (isDot c)) p = true ->
  forall s,
    matchHere p s = true
    <-> exists w rest, s = (w ++ rest)%list /\ map toLower w = map toLower p.
Proof.
  induction p as [| pc p IH]; intros Hp s.
  - assert (E : matchHere [] s = true) by (destruct s; reflexivity).
    rewrite E. split; [intros _ | reflexivity].
    exists [], s. split; reflexivity.
  - simpl in Hp. apply andb_true_iff in Hp. destruct Hp as [Hpc Hp].
    apply negb_true_iff in Hpc.
    destruct s as [| c s]; simpl.
    + split; [discriminate |].
      intros (w & rest & Hs & Hw).
      destruct w; [discriminate Hw | discriminate Hs].
    + unfold charMatches. rewrite Hpc.
      rewrite andb_true_iff, (IH Hp s), Ascii.eqb_eq.
      split.
      * intros (Hc & w & rest & -> & Hw).
        exists (c :: w), rest. simpl. rewrite Hw, Hc. split; reflexivity.
      * intros (w & rest & Hs & Hw).
        destruct w as [| c' w]; [discriminate Hw |].
        simpl in Hs, Hw. injection Hs as <- ->. injection Hw as Hc Hw.
        split; [symmetry; exact Hc |].
        exists w, rest. split; [reflexivity | exact Hw].
Qed.

Lemma matchAnywhere_iff (p s : list ascii) :
  matchAnywhere p s = true
  <-> exists pre suf, s = (pre ++ suf)%list /\ matchHere p suf = true.
Proof.
  induction s as [| c s IH]; simpl.
  - split.
    + intro H. exists [], []. split; [reflexivity | exact H].
    + intros (pre & suf & Hs & H).
      symmetry in Hs. apply app_eq_nil in Hs. destruct Hs as [_ ->]. exact H.
  - rewrite orb_true_iff, IH. split.
    + intros [H | (pre & suf & -> & H)].
      * exists [], (c :: s). split; [reflexivity | exact H].
      * exists (c :: pre), suf. split; [reflexivity | exact H].
    + intros (pre & suf & Hs & H).
      destruct pre as [| c' pre]; simpl in Hs.
      * left. subst suf. exact H.
      * injection Hs as <- ->. right. exists pre, suf. split; [reflexivity | exact H].
Qed.

Lemma isLiteralPattern_split (s : string) :
  isLiteralPattern s = true ->
  inFragment s = true
  /\ forallb (fun c => negb (isDot c)) (list_ascii_of_string s) = true.
Proof.
  unfold isLiteralPattern, inFragment.
  induction (list_ascii_of_string s) as [| c l IH]; simpl.
  - intros _. split; reflexivity.
  - intro H. apply andb_true_iff in H. destruct H as [Hc Hl].
    apply negb_true_iff, orb_false_iff in Hc. destruct Hc as [Hop Hdot].
    destruct (IH Hl) as [IH1 IH2].
    rewrite Hop, Hdot. simpl. split; assumption.
Qed.

(** On a literal pattern the store's regular-expression match is
    case-insensitive containment. *)
Lemma regexSearchI_literal (pat subject : string) :
  isLiteralPattern pat = true ->
  regexSearchI pat subject = true <-> containsCI pat subject.
Proof.
  intro Hlit. apply isLiteralPattern_split in Hlit. destruct Hlit as [_ Hnodot].
  unfold regexSearchI, containsCI.
  rewrite matchAnywhere_iff. split.
  - intros (pre & suf & Hs & Hm).
    apply (matchHere_literal _ Hnodot) in Hm.
    destruct Hm as (w & rest & -> & Hw).
    exists (map toLower pre), (map toLower rest).
    rewrite Hs, !map_app, Hw. reflexivity.
  - intros (pre & post & H).
    apply map_eq_app in H. destruct H as (s1 & s2 & Hs & _ & H2).
    apply map_eq_app in H2. destruct H2 as (w & rest & -> & Hw & _).
    exists s1, (w ++ rest)%list. split; [exact Hs |].
    apply (matchHere_literal _ Hnodot). exists w, rest. split; [reflexivity | exact Hw].
Qed.

Lemma containsCI_empty (t : string) : containsCI "" t.
Proof. exists [], (map toLower (list_ascii_of_string t)). reflexivity. Qed.

Lemma matchesQuery_search (s : string) (t : Task) :
  isLiteralPattern s = true ->
  matchesQuery (queryOf (mkFilters None None (Some s))) t = true
  <-> titleOrDescriptionContains s t.
Proof.
  intro Hlit. unfold matchesQuery, queryOf, titleOrDescriptionContains.
  cbn [f_isCompleted f_priority f_search truthyOptString
       q_isCompleted q_priority q_search q_dueBefore].
  unfold truthyString.
  destruct (String.eqb s "") eqn:Es; cbn.
  - apply String.eqb_eq in Es. subst s.
    split; [intros _; left; apply containsCI_empty | reflexivity].
  - rewrite andb_true_r, orb_true_iff, (regexSearchI_literal s (title t) Hlit).
    destruct (description t) as [d |]; cbn.
    + rewrite (regexSearchI_literal s d Hlit). split.
      * intros [H | H]; [left; exact H | right; exists d; auto].
      * intros [H | (d' & Hd & H)]; [left; exact H |].
        injection Hd as <-. right. exact H.
    + split.
      * intros [H | H]; [left; exact H | discriminate].
      * intros [H | (d' & Hd & _)]; [left; exact H | discriminate].
Qed.

(** C5, amended: the search string is handed to the store as a regular
    expression.  For every search string without regular-expression
    metacharacters, [getAllTasks] with that search alone returns exactly
    the tasks whose title or description contains the string, ignoring
    case, and no other task. *)
Theorem getAllTasks_search_literal :
  forall (rx : RegexEngine) (s : string) (st : Store),
    isLiteralPattern s = true ->
    exists l,
      result (getAllTasks rx (mkFilters None None (Some s)) st) = Ok l
      /\ forall t, In t l <-> In t st /\ titleOrDescriptionContains s t.
Proof.
  intros rx s st Hlit.
  eexists. split.
  - apply getAllTasks_returns. cbn. apply (isLiteralPattern_split s Hlit).
  - intro t. rewrite sortByCreatedAtDesc_In, filter_In.
    rewrite (matchesQuery_search s t Hlit). reflexivity.
Qed.

(** Searching "RENT" in the example collection finds "Pay rent" only. *)
Lemma getAllTasks_search_literal_witness :
  exists l,
    result (getAllTasks exampleRegex (mkFilters None None (Some "RENT")) exampleStore) = Ok l
    /\ forall t, In t l <-> In t exampleStore /\ titleOrDescriptionContains "RENT" t.
Proof.
  apply (getAllTasks_search_literal exampleRegex "RENT" exampleStore). reflexivity.
Defined.

(** C5 as stated fails: the search string "." is a pattern that matches
    any character, so the task titled "a" (no description) is returned
    although neither field contains a full stop. *)
Lemma getAllTasks_search_not_substring :
  result (getAllTasks exampleRegex (mkFilters None None (Some ".")) exampleStore)
  = Ok [taskB; taskA]
  /\ In taskB [taskB; taskA]
  /\ ~ titleOrDescriptionContains "." taskB.
Proof.
  split; [reflexivity |]. split; [left; reflexivity |].
  intros [(pre & post & H) | (d & Hd & _)]; [| discriminate Hd].
  cbn in H.
  destruct pre as [| c pre]; [discriminate H |].
  destruct pre; discriminate H.
Qed.

(** ** Lookups, updates and deletions on the collection *)

Lemma updateById_found (id : string) (f : Task -> Task) (st : Store) (old : Task) :
  (forall t, _id (f t) = _id t) ->
  Task_findById id st = Some old ->
  fst (updateById id f st) = Some (f old)
  /\ Task_findById id (snd (updateById id f st)) = Some (f old).
Proof.
  intros Hid. unfold Task_findById.
  induction st as [| t r IH]; simpl; [discriminate |].
  destruct (sameObjectId (_id t) id) eqn:E.
  - intro H. injection H as <-. simpl. rewrite Hid, E. split; reflexivity.
  - intro H. specialize (IH H).
    destruct (updateById id f r) as [res r']. simpl in *.
    rewrite E. exact IH.
Qed.

Lemma updateById_absent (id : string) (f : Task -> Task) (st : Store) :
  Task_findById id st = None -> updateById id f st = (None, st).
Proof.
  unfold Task_findById.
  induction st as [| t r IH]; simpl; [reflexivity |].
  destruct (sameObjectId (_id t) id); [discriminate |].
  intro H. rewrite (IH H). reflexivity.
Qed.

Lemma Task_findByIdAndDelete_absent (id : string) (st : Store) :
  Task_findById id st = None -> Task_findByIdAndDelete id st = (None, st).
Proof.
  unfold Task_findById.
  induction st as [| t r IH]; simpl; [reflexivity |].
  destruct (sameObjectId (_id t) id); [discriminate |].
  intro H. rewrite (IH H). reflexivity.
Qed.

Lemma applyUpdate_id (s : CastUpdate) (t : Task) : _id (applyUpdate s t) = _id t.
Proof. reflexivity. Qed.

Lemma castUpdate_error (u : UpdateDoc) (e : Error) :
  castUpdate u = Err e -> e = CastError "dueDate".
Proof.
  unfold castUpdate.
  destruct (u_dueDate u) as [[d |] |]; try discriminate.
  intro H. injection H as <-. reflexivity.
Qed.

(** ** The three paths of [updateTask] *)

Section UpdateTaskPaths.

Variable Date_parse : string -> DateObj.
Variables t_check t_stamp t_valid : Z.
Variable id : string.
Variable updates : UpdateTaskRequest.
Variable st : Store.

Lemma updateTask_invalid_id :
  isValidId id = false ->
  updateTask Date_parse t_check t_stamp t_valid id updates st
  = mkOutcome (Err InvalidTaskIdFormat) st [].
Proof. intro H. unfold updateTask. rewrite H. reflexivity. Qed.

Lemma updateTask_due_rejected :
  isValidId id = true ->
  dueNotInFuture Date_parse (p_dueDate updates) t_check = true ->
  updateTask Date_parse t_check t_stamp t_valid id updates st
  = mkOutcome (Err DueDateMustBeFuture) st [].
Proof. intros H1 H2. unfold updateTask. rewrite H1, H2. reflexivity. Qed.

Lemma updateTask_reaches_store :
  isValidId id = true ->
  dueNotInFuture Date_parse (p_dueDate updates) t_check = false ->
  updateTask Date_parse t_check t_stamp t_valid id updates st
  = mkOutcome
      (fst (Task_findByIdAndUpdate id (updateDataOf Date_parse t_stamp updates) t_valid st))
      (snd (Task_findByIdAndUpdate id (updateDataOf Date_parse t_stamp updates) t_valid st))
      [CallFindByIdAndUpdate].
Proof.
  intros H1 H2. unfold updateTask. rewrite H1, H2. cbn [negb].
  fold (updateDataOf Date_parse t_stamp updates).
  destruct (Task_findByIdAndUpdate _ _ _ _). reflexivity.
Qed.

(** Whatever the call does, an error leaves the collection as it was. *)
Lemma updateTask_error_keeps_store (e : Error) :
  result (updateTask Date_parse t_check t_stamp t_valid id updates st) = Err e ->
  store (updateTask Date_parse t_check t_stamp t_valid id updates st) = st.
Proof.
  destruct (isValidId id) eqn:Hid;
    [| rewrite (updateTask_invalid_id Hid); reflexivity].
  destruct (dueNotInFuture Date_parse (p_dueDate updates) t_check) eqn:Hdue;
    [rewrite (updateTask_due_rejected Hid Hdue); reflexivity |].
  rewrite (updateTask_reaches_store Hid Hdue). cbn [result store].
  unfold Task_findByIdAndUpdate.
  destruct (castUpdate _) as [s | e']; [| reflexivity].
  destruct (updateFailures t_valid s); [| reflexivity].
  destruct (updateById id (applyUpdate s) st). discriminate.
Qed.

(** An accepted patch on an existing task: the cast update it applies. *)
Lemma updateTask_accepted (old : Task) :
  isValidId id = true ->
  Task_findById id st = Some old ->
  patchAccepted Date_parse t_check t_stamp t_valid updates = true ->
  exists s,
    castUpdate (updateDataOf Date_parse t_stamp updates) = Ok s
    /\ updateFailures t_valid s = []
    /\ result (updateTask Date_parse t_check t_stamp t_valid id updates st)
       = Ok (Some (applyUpdate s old))
    /\ Task_findById id
         (store (updateTask Date_parse t_check t_stamp t_valid id updates st))
       = Some (applyUpdate s old).
Proof.
  intros Hid Hold Hacc. unfold patchAccepted in Hacc.
  apply andb_true_iff in Hacc. destruct Hacc as [Hdue Hrest].
  apply negb_true_iff in Hdue.
  rewrite (updateTask_reaches_store Hid Hdue). cbn [result store].
  unfold Task_findByIdAndUpdate.
  destruct (castUpdate _) as [s | e]; [| discriminate].
  destruct (updateFailures t_valid s) eqn:Hf; [| discriminate].
  exists s. split; [reflexivity |]. split; [exact Hf |].
  destruct (updateById_found id (applyUpdate s) st old (applyUpdate_id s) Hold)
    as [H1 H2].
  destruct (updateById id (applyUpdate s) st) as [res st']. simpl in *.
  subst res. split; [reflexivity | exact H2].
Qed.

(** A rejected patch fails, whether or not the task exists. *)
Lemma updateTask_rejected :
  isValidId id = true ->
  patchAccepted Date_parse t_check t_stamp t_valid updates = false ->
  exists e,
    result (updateTask Date_parse t_check t_stamp t_valid id updates st) = Err e
    /\ e <> InvalidTaskIdFormat.
Proof.
  intros Hid Hacc. unfold patchAccepted in Hacc.
  destruct (dueNotInFuture Date_parse (p_dueDate updates) t_check) eqn:Hdue.
  - rewrite (updateTask_due_rejected Hid Hdue). eexists. split; [reflexivity | discriminate].
  - rewrite (updateTask_reaches_store Hid Hdue). cbn [result].
    cbn [negb andb] in Hacc. unfold Task_findByIdAndUpdate.
    unfold castUpdate in *.
    destruct (u_dueDate (updateDataOf Date_parse t_stamp updates)) as [[d |] |];
      try (eexists; split; [reflexivity | discriminate]);
      match goal with
      | |- context [updateFailures ?a ?b] =>
          destruct (updateFailures a b); [discriminate Hacc |]
      end;
      eexists; (split; [reflexivity | discriminate]).
Qed.

(** A well-formed id that names no task: the call modifies nothing and
    answers [null] unless the patch is refused. *)
Lemma updateTask_absent :
  isValidId id = true ->
  Task_findById id st = None ->
  result (updateTask Date_parse t_check t_stamp t_valid id updates st)
  <> Err InvalidTaskIdFormat
  /\ store (updateTask Date_parse t_check t_stamp t_valid id updates st) = st
  /\ (forall r,
        result (updateTask Date_parse t_check t_stamp t_valid id updates st) = Ok r ->
        r = None)
  /\ (patchAccepted Date_parse t_check t_stamp t_valid updates = true ->
      updateTask Date_parse t_check t_stamp t_valid id updates st
      = mkOutcome (Ok None) st [CallFindByIdAndUpdate]).
Proof.
  intros Hid Habsent.
  destruct (dueNotInFuture Date_parse (p_dueDate updates) t_check) eqn:Hdue.
  - rewrite (updateTask_due_rejected Hid Hdue).
    cbn [result store]. repeat split; try discriminate.
    unfold patchAccepted. rewrite Hdue. discriminate.
  - rewrite (updateTask_reaches_store Hid Hdue).
    unfold patchAccepted. rewrite Hdue. cbn [negb andb result store].
    unfold Task_findByIdAndUpdate.
    destruct (castUpdate (updateDataOf Date_parse t_stamp updates))
      as [s | e] eqn:Hcast.
    + destruct (updateFailures t_valid s).
      * rewrite (updateById_absent id (applyUpdate s) st Habsent).
        cbn [fst snd]. repeat split; try discriminate.
        intros r Hr. injection Hr as <-. reflexivity.
      * cbn [fst snd]. repeat split; try discriminate.
    + rewrite (castUpdate_error _ _ Hcast).
      cbn [fst snd]. repeat split; try discriminate.
Qed.

End UpdateTaskPaths.

(** ** Partial updates *)

(** C1, amended: for every existing task and every patch that passes
    validation, [updateTask] sets [title], [description], [priority],
    [tags] and [isCompleted] exactly when their key is present (an explicit
    [isCompleted: false] included; strings are stored trimmed), sets
    [dueDate] only when the patch holds a truthy due date, leaves it
    untouched when the value is absent or falsy, and changes no other field
    except [updatedAt].  In particular [updateTask(id, { isCompleted:
    false })] on a task that is not completed changes no field other than
    [updatedAt]. *)
Theorem updateTask_partial_update :
  forall (Date_parse : string -> DateObj) (t_check t_stamp t_valid : Z)
         (id : string) (st : Store) (old : Task),
    isValidId id = true ->
    Task_findById id st = Some old ->
    (forall patch : UpdateTaskRequest,
        patchAccepted Date_parse t_check t_stamp t_valid patch = true ->
        exists new : Task,
          result (updateTask Date_parse t_check t_stamp t_valid id patch st)
          = Ok (Some new)
          /\ Task_findById id
               (store (updateTask Date_parse t_check t_stamp t_valid id patch st))
             = Some new
          /\ title new = match p_title patch with
                         | Some s => trim s
                         | None => title old
                         end
          /\ description new = match p_description patch with
                               | Some s => Some (trim s)
                               | None => description old
                               end
          /\ priority new = orElse (p_priority patch) (priority old)
          /\ tags new = match p_tags patch with
                        | Some l => map trim l
                        | None => tags old
                        end
          /\ isCompleted new = orElse (p_isCompleted patch) (isCompleted old)
          /\ (truthyDue (p_dueDate patch) = false -> dueDate new = dueDate old)
          /\ (truthyDue (p_dueDate patch) = true ->
              exists d, newDate Date_parse (p_dueDate patch) = ValidDate d
                        /\ dueDate new = Some d)
          /\ _id new = _id old
          /\ createdAt new = createdAt old
          /\ updatedAt new = t_stamp)
    /\ (isCompleted old = false ->
        result (updateTask Date_parse t_check t_stamp t_valid id pendingPatch st)
        = Ok (Some (withUpdatedAt old t_stamp))
        /\ Task_findById id
             (store (updateTask Date_parse t_check t_stamp t_valid id pendingPatch st))
           = Some (withUpdatedAt old t_stamp)).
Proof.
  intros Date_parse t_check t_stamp t_valid id st old Hid Hold. split.
  - intros patch Hacc.
    destruct (updateTask_accepted Date_parse t_check t_stamp t_valid id patch st
                old Hid Hold Hacc) as (s & Hcast & _ & Hres & Hfind).
    exists (applyUpdate s old).
    split; [exact Hres |]. split; [exact Hfind |].
    unfold castUpdate, updateDataOf, convertDue in Hcast.
    cbn [u_title u_description u_priority u_dueDate u_tags u_isCompleted
         u_updatedAt] in Hcast.
    destruct (truthyDue (p_dueDate patch)) eqn:Htruthy.
    + destruct (newDate Date_parse (p_dueDate patch)) as [d |] eqn:Hnew;
        [| discriminate Hcast].
      injection Hcast as <-. unfold applyUpdate. cbn.
      destruct (p_title patch), (p_description patch), (p_tags patch);
        repeat split; try reflexivity; try discriminate.
      all: intros _; exists d; split; reflexivity.
    + injection Hcast as <-. unfold applyUpdate. cbn.
      destruct (p_title patch), (p_description patch), (p_tags patch);
        repeat split; try reflexivity; try discriminate.
  - intro Hpending.
    assert (Hacc : patchAccepted Date_parse t_check t_stamp t_valid pendingPatch = true)
      by reflexivity.
    destruct (updateTask_accepted Date_parse t_check t_stamp t_valid id pendingPatch
                st old Hid Hold Hacc) as (s & Hcast & _ & Hres & Hfind).
    injection Hcast as <-.
    assert (E : applyUpdate
                  (mkCastUpdate None None None None None (Some false) t_stamp) old
                = withUpdatedAt old t_stamp).
    { unfold applyUpdate, withUpdatedAt. cbn. rewrite Hpending. reflexivity. }
    cbn [option_map p_title p_description p_priority p_tags p_isCompleted
         pendingPatch] in Hres, Hfind.
    rewrite E in Hres, Hfind. split; assumption.
Qed.

(** Marking the pending task "Pay rent" as pending again, at time 3000. *)
Lemma updateTask_partial_update_witness :
  result (updateTask exampleParse 3000 3000 3000 idA pendingPatch exampleStore)
  = Ok (Some (withUpdatedAt taskA 3000))
  /\ Task_findById idA
       (store (updateTask exampleParse 3000 3000 3000 idA pendingPatch exampleStore))
     = Some (withUpdatedAt taskA 3000).
Proof.
  apply (proj2 (updateTask_partial_update exampleParse 3000 3000 3000 idA
                  exampleStore taskA eq_refl eq_refl)).
  reflexivity.
Defined.

(** C1 as stated fails: a patch whose [dueDate] key is present with a
    falsy value ([null], or the empty string an empty form field sends) is
    accepted, yet the field is not applied: the stored due date stays. *)
Lemma updateTask_falsy_dueDate_not_applied :
  (exists new,
      result (updateTask exampleParse 3000 3000 3000 idA
                (mkUpdate None None None DueNull None None) exampleStore)
      = Ok (Some new)
      /\ dueDate new = Some 5000)
  /\ (exists new,
        result (updateTask exampleParse 3000 3000 3000 idA
                  (mkUpdate None None None (DueString "") None None) exampleStore)
        = Ok (Some new)
        /\ dueDate new = Some 5000).
Proof.
  split; eexists; split; reflexivity.
Qed.

(** ** Due dates *)

Lemma dueTime_not_in_future (Date_parse : string -> DateObj) (v : DueInput)
    (d now : Z) :
  dueTime Date_parse v = Some d ->
  d <= now ->
  dueNotInFuture Date_parse v now = true.
Proof.
  unfold dueTime, dueNotInFuture. intros H Hle.
  destruct v as [| | s | [d' |]]; try discriminate; cbn.
  - destruct (truthyString s); [| discriminate].
    destruct (Date_parse s) as [d' |]; [| discriminate].
    injection H as ->. cbn. apply Z.leb_le, Hle.
  - injection H as ->. apply Z.leb_le, Hle.
Qed.

(** C3, amended: when the [dueDate] of the input denotes a time that is
    not later than the current time, [createTask] fails with the due-date
    error, and [updateTask] fails with the due-date error when the id is
    well formed and with the invalid-id error otherwise (it checks the id
    first); in every case no store call is issued: nothing is persisted and
    nothing is modified. *)
Theorem dueDate_not_in_future_rejected :
  forall (Date_parse : string -> DateObj) (v : DueInput) (d t_check : Z),
    dueTime Date_parse v = Some d ->
    d <= t_check ->
    (forall (oid : string) (t_created t_valid t_save : Z)
            (taskdata : CreateTaskRequest) (st : Store),
        c_dueDate taskdata = v ->
        createTask Date_parse t_check oid t_created t_valid t_save taskdata st
        = mkOutcome (Err DueDateMustBeFuture) st [])
    /\ (forall (t_stamp t_valid : Z) (id : string)
               (updates : UpdateTaskRequest) (st : Store),
          p_dueDate updates = v ->
          updateTask Date_parse t_check t_stamp t_valid id updates st
          = mkOutcome
              (Err (if isValidId id then DueDateMustBeFuture
                    else InvalidTaskIdFormat))
              st []).
Proof.
  intros Date_parse v d t_check Hd Hle.
  pose proof (dueTime_not_in_future Date_parse v d t_check Hd Hle) as Hdue.
  split.
  - intros oid t_created t_valid t_save taskdata st Hv.
    unfold createTask. rewrite Hv, Hdue. reflexivity.
  - intros t_stamp t_valid id updates st Hv.
    destruct (isValidId id) eqn:Hid.
    + apply updateTask_due_rejected; [exact Hid | rewrite Hv; exact Hdue].
    + apply updateTask_invalid_id, Hid.
Qed.

(** A due date in 2020 set at a moment in 2023: both operations refuse. *)
Lemma dueDate_not_in_future_rejected_witness :
  createTask exampleParse 1700000000000 idAbsent 1700000000000 1700000000000
             1700000000000
             (mkCreate "Pay rent" None (Some "high")
                       (DueString "2020-01-01T00:00:00.000Z") None)
             exampleStore
  = mkOutcome (Err DueDateMustBeFuture) exampleStore []
  /\ updateTask exampleParse 1700000000000 1700000000000 1700000000000 idA
                (mkUpdate None None None
                          (DueString "2020-01-01T00:00:00.000Z") None None)
                exampleStore
     = mkOutcome (Err DueDateMustBeFuture) exampleStore [].
Proof.
  assert (Hd : dueTime exampleParse (DueString "2020-01-01T00:00:00.000Z")
               = Some 1577836800000) by reflexivity.
  assert (Hle : 1577836800000 <= 1700000000000) by lia.
  split.
  - apply (proj1 (dueDate_not_in_future_rejected exampleParse _ _ _ Hd Hle)).
    reflexivity.
  - apply (proj2 (dueDate_not_in_future_rejected exampleParse _ _ _ Hd Hle)
                 1700000000000 1700000000000 idA).
    reflexivity.
Defined.

(** C3 as stated fails for [updateTask] on a malformed id: the past due
    date is not what the call reports, the id is. *)
Lemma dueDate_not_in_future_malformed_id :
  dueTime exampleParse (DueString "2020-01-01T00:00:00.000Z") = Some 1577836800000
  /\ 1577836800000 <= 1700000000000
  /\ result (updateTask exampleParse 1700000000000 1700000000000 1700000000000
                "stats"
                (mkUpdate None None None
                          (DueString "2020-01-01T00:00:00.000Z") None None)
                exampleStore)
     = Err InvalidTaskIdFormat
  /\ InvalidTaskIdFormat <> DueDateMustBeFuture.
Proof.
  split; [reflexivity |]. split; [lia |]. split; [reflexivity | discriminate].
Qed.

(** C7, amended: a [dueDate] that is truthy but is not a date (a non-empty
    string that does not parse, or an invalid [Date]) makes [createTask]
    and [updateTask] fail and leaves the collection as it was; a falsy
    [dueDate] (the empty string, [null]) is handled exactly as a request
    without the key. *)
Theorem dueDate_invalid_rejected_falsy_ignored :
  forall (Date_parse : string -> DateObj) (v : DueInput),
    (truthyDue v = true ->
     newDate Date_parse v = InvalidDate ->
     (forall (t_check : Z) (oid : string) (t_created t_valid t_save : Z)
             (taskdata : CreateTaskRequest) (st : Store),
         exists paths,
           createTask Date_parse t_check oid t_created t_valid t_save
                      (withCreateDue taskdata v) st
           = mkOutcome (Err (ValidationError paths)) st [CallSave]
           /\ In "dueDate" paths)
     /\ (forall (t_check t_stamp t_valid : Z) (id : string)
                (updates : UpdateTaskRequest) (st : Store),
           updateTask Date_parse t_check t_stamp t_valid id
                      (withPatchDue updates v) st
           = if isValidId id
             then mkOutcome (Err (CastError "dueDate")) st [CallFindByIdAndUpdate]
             else mkOutcome (Err InvalidTaskIdFormat) st []))
    /\ (truthyDue v = false ->
        (forall (t_check : Z) (oid : string) (t_created t_valid t_save : Z)
                (taskdata : CreateTaskRequest) (st : Store),
            createTask Date_parse t_check oid t_created t_valid t_save
                       (withCreateDue taskdata v) st
            = createTask Date_parse t_check oid t_created t_valid t_save
                         (withCreateDue taskdata DueUndefined) st)
        /\ (forall (t_check t_stamp t_valid : Z) (id : string)
                   (updates : UpdateTaskRequest) (st : Store),
              updateTask Date_parse t_check t_stamp t_valid id
                         (withPatchDue updates v) st
              = updateTask Date_parse t_check t_stamp t_valid id
                           (withPatchDue updates DueUndefined) st)).
Proof.
  intros Date_parse v. split.
  - intros Htruthy Hinvalid.
    assert (Hdue : forall t, dueNotInFuture Date_parse v t = false).
    { intro t. unfold dueNotInFuture. rewrite Htruthy, Hinvalid. reflexivity. }
    assert (Hconv : convertDue Date_parse v = Some InvalidDate).
    { unfold convertDue. rewrite Htruthy, Hinvalid. reflexivity. }
    split.
    + intros t_check oid t_created t_valid t_save taskdata st.
      unfold createTask, withCreateDue. cbn [c_dueDate c_title c_description
                                            c_priority c_tags].
      rewrite Hdue, Hconv. unfold Task_save, saveFailures.
      cbn [i_title i_description i_priority i_dueDate i_tags].
      match goal with
      | |- context [(?a ++ ?b ++ ?c ++ ["dueDate"])%list] =>
          assert (Hin : In "dueDate" (a ++ b ++ c ++ ["dueDate"])%list)
            by (rewrite !in_app_iff; right; right; right; left; reflexivity);
          destruct (a ++ b ++ c ++ ["dueDate"])%list as [| p ps] eqn:E
      end.
      * destruct Hin.
      * exists (p :: ps). split; [reflexivity | exact Hin].
    + intros t_check t_stamp t_valid id updates st.
      destruct (isValidId id) eqn:Hid.
      * rewrite updateTask_reaches_store; [| exact Hid | apply Hdue].
        unfold Task_findByIdAndUpdate, castUpdate, updateDataOf, withPatchDue.
        cbn [u_dueDate p_dueDate]. rewrite Hconv. reflexivity.
      * apply updateTask_invalid_id, Hid.
  - intro Hfalsy. split.
    + intros. unfold createTask, withCreateDue, dueNotInFuture, convertDue.
      cbn [c_dueDate c_title c_description c_priority c_tags truthyDue].
      rewrite Hfalsy. reflexivity.
    + intros. unfold updateTask, withPatchDue, dueNotInFuture, convertDue.
      cbn [p_dueDate p_title p_description p_priority p_tags p_isCompleted truthyDue].
      rewrite Hfalsy. reflexivity.
Qed.

(** "tomorrow" is truthy and does not parse: the update is refused. *)
Lemma dueDate_invalid_rejected_falsy_ignored_witness :
  updateTask exampleParse 3000 3000 3000 idA
             (mkUpdate None None None (DueString "tomorrow") None None)
             exampleStore
  = mkOutcome (Err (CastError "dueDate")) exampleStore [CallFindByIdAndUpdate].
Proof.
  exact (proj2 (proj1 (dueDate_invalid_rejected_falsy_ignored
                         exampleParse (DueString "tomorrow"))
                      eq_refl eq_refl)
               3000 3000 3000 idA emptyPatch exampleStore).
Defined.

(** C7 as stated fails: an empty-string [dueDate] is dropped and the
    operations report success; the created task has no due date, the
    updated one keeps the date it had. *)
Lemma dueDate_empty_string_dropped :
  (exists task,
      createTask exampleParse 3000 idAbsent 3000 3000 3000
                 (mkCreate "Water plants" None None (DueString "") None)
                 exampleStore
      = mkOutcome (Ok task) (exampleStore ++ [task])%list [CallSave]
      /\ dueDate task = None)
  /\ (exists task,
        result (updateTask exampleParse 3000 3000 3000 idA
                  (mkUpdate (Some "Pay the rent") None None (DueString "") None None)
                  exampleStore)
        = Ok (Some task)
        /\ title task = "Pay the rent"
        /\ dueDate task = Some 5000).
Proof.
  split; eexists; repeat split; reflexivity.
Qed.

(** ** Identifiers *)

(** C6, amended: an id that is not a 24-character hexadecimal string
    makes [getTaskById], [updateTask] and [deleteTask] fail with the
    invalid-id error before any store call, the collection untouched.  A
    well-formed id that names no task (no stored task has its ObjectId,
    in whatever case the id is spelled) is answered by absence instead:
    [getTaskById] returns [null], [deleteTask] returns [false], and
    [updateTask] returns [null] for every patch that passes validation;
    for a patch that does not, it fails with that validation's error.
    [updateTask] never reports a format error for such an id and modifies
    nothing. *)
Theorem invalid_id_distinct_from_absent :
  forall (id : string) (st : Store),
    (isValidId id = false ->
     getTaskById id st = mkOutcome (Err InvalidTaskIdFormat) st []
     /\ deleteTask id st = mkOutcome (Err InvalidTaskIdFormat) st []
     /\ forall (Date_parse : string -> DateObj) (t_check t_stamp t_valid : Z)
               (updates : UpdateTaskRequest),
          updateTask Date_parse t_check t_stamp t_valid id updates st
          = mkOutcome (Err InvalidTaskIdFormat) st [])
    /\ (isValidId id = true ->
        Task_findById id st = None ->
        getTaskById id st = mkOutcome (Ok None) st [CallFindById]
        /\ deleteTask id st = mkOutcome (Ok false) st [CallFindByIdAndDelete]
        /\ forall (Date_parse : string -> DateObj) (t_check t_stamp t_valid : Z)
                  (updates : UpdateTaskRequest),
             let o := updateTask Date_parse t_check t_stamp t_valid id updates st in
             result o <> Err InvalidTaskIdFormat
             /\ store o = st
             /\ (forall r, result o = Ok r -> r = None)
             /\ (patchAccepted Date_parse t_check t_stamp t_valid updates = true ->
                 o = mkOutcome (Ok None) st [CallFindByIdAndUpdate])
             /\ (patchAccepted Date_parse t_check t_stamp t_valid updates = false ->
                 exists e, result o = Err e /\ e <> InvalidTaskIdFormat)).
Proof.
  intros id st. split.
  - intro Hid. split; [| split].
    + unfold getTaskById. rewrite Hid. reflexivity.
    + unfold deleteTask. rewrite Hid. reflexivity.
    + intros. apply updateTask_invalid_id, Hid.
  - intros Hid Habsent. split; [| split].
    + unfold getTaskById. rewrite Hid, Habsent. reflexivity.
    + unfold deleteTask. rewrite Hid, (Task_findByIdAndDelete_absent id st Habsent).
      reflexivity.
    + intros Date_parse t_check t_stamp t_valid updates o. subst o.
      destruct (updateTask_absent Date_parse t_check t_stamp t_valid id updates
                  st Hid Habsent) as (H1 & H2 & H3 & H4).
      repeat (split; [assumption |]).
      apply updateTask_rejected, Hid.
Qed.

(** "stats" is malformed; [idAbsent] is well formed and names no task of
    the example collection. *)
Lemma invalid_id_distinct_from_absent_witness :
  (getTaskById "stats" exampleStore
   = mkOutcome (Err InvalidTaskIdFormat) exampleStore []
   /\ deleteTask "stats" exampleStore
      = mkOutcome (Err InvalidTaskIdFormat) exampleStore [])
  /\ (getTaskById idAbsent exampleStore
      = mkOutcome (Ok None) exampleStore [CallFindById]
      /\ deleteTask idAbsent exampleStore
         = mkOutcome (Ok false) exampleStore [CallFindByIdAndDelete]
      /\ updateTask exampleParse 3000 3000 3000 idAbsent emptyPatch exampleStore
         = mkOutcome (Ok None) exampleStore [CallFindByIdAndUpdate]).
Proof.
  split.
  - destruct (proj1 (invalid_id_distinct_from_absent "stats" exampleStore) eq_refl)
      as (Hget & Hdel & _).
    split; assumption.
  - destruct (proj2 (invalid_id_distinct_from_absent idAbsent exampleStore)
                    eq_refl eq_refl)
      as (Hget & Hdel & Hupd).
    split; [exact Hget |]. split; [exact Hdel |].
    apply (Hupd exampleParse 3000 3000 3000 emptyPatch). reflexivity.
Defined.

(** The upper-case spelling of a stored id names the same ObjectId: it
    finds the task. *)
Example getTaskById_upper_case :
  getTaskById "64B7F0C2A1D3E4F5A6B7C8D9" exampleStore
  = mkOutcome (Ok (Some taskA)) exampleStore [CallFindById].
Proof. reflexivity. Qed.

(** C6 as stated fails for [updateTask]: on a well-formed id that names
    no task, a patch with a past due date is answered by the due-date
    error, not by [null]. *)
Lemma updateTask_absent_id_invalid_patch :
  isValidId idAbsent = true
  /\ Task_findById idAbsent exampleStore = None
  /\ result (updateTask exampleParse 1700000000000 1700000000000 1700000000000
                idAbsent
                (mkUpdate None None None
                          (DueString "2020-01-01T00:00:00.000Z") None None)
                exampleStore)
     = Err DueDateMustBeFuture
  /\ Err DueDateMustBeFuture <> Ok (@None Task).
Proof.
  split; [reflexivity |]. split; [reflexivity |].
  split; [reflexivity | discriminate].
Qed.

(** ** The empty patch *)

(** C8, amended: for every existing task, [updateTask(id, {})] succeeds,
    sets [updatedAt] to the clock reading the call takes, and changes no
    other field; [updatedAt] is strictly later than before exactly when
    that reading is later than the stored value. *)
Theorem updateTask_empty_patch :
  forall (Date_parse : string -> DateObj) (t_check t_stamp t_valid : Z)
         (id : string) (st : Store) (old : Task),
    isValidId id = true ->
    Task_findById id st = Some old ->
    let o := updateTask Date_parse t_check t_stamp t_valid id emptyPatch st in
    result o = Ok (Some (withUpdatedAt old t_stamp))
    /\ Task_findById id (store o) = Some (withUpdatedAt old t_stamp)
    /\ calls o = [CallFindByIdAndUpdate]
    /\ (updatedAt old < updatedAt (withUpdatedAt old t_stamp)
        <-> updatedAt old < t_stamp).
Proof.
  intros Date_parse t_check t_stamp t_valid id st old Hid Hold o. subst o.
  assert (Hacc : patchAccepted Date_parse t_check t_stamp t_valid emptyPatch = true)
    by reflexivity.
  destruct (updateTask_accepted Date_parse t_check t_stamp t_valid id emptyPatch
              st old Hid Hold Hacc) as (s & Hcast & _ & Hres & Hfind).
  injection Hcast as <-.
  assert (E : applyUpdate (mkCastUpdate None None None None None None t_stamp) old
              = withUpdatedAt old t_stamp) by reflexivity.
  cbn [option_map p_title p_description p_priority p_tags p_isCompleted
       emptyPatch] in Hres, Hfind.
  rewrite E in Hres, Hfind.
  split; [exact Hres |]. split; [exact Hfind |]. split.
  - rewrite (updateTask_reaches_store Date_parse t_check t_stamp t_valid id
               emptyPatch st Hid eq_refl).
    reflexivity.
  - reflexivity.
Qed.

(** The empty patch on "Pay rent" at time 3000. *)
Lemma updateTask_empty_patch_witness :
  result (updateTask exampleParse 3000 3000 3000 idA emptyPatch exampleStore)
  = Ok (Some (withUpdatedAt taskA 3000)).
Proof.
  exact (proj1 (updateTask_empty_patch exampleParse 3000 3000 3000 idA
                  exampleStore taskA eq_refl eq_refl)).
Defined.

(** C8 as stated fails on the strict advance: a task created and then
    updated with the empty patch within the same millisecond keeps the
    [updatedAt] it had. *)
Lemma updateTask_empty_patch_same_millisecond :
  exists old new : Task,
    let created :=
      createTask exampleParse 1000 idA 1000 1000 1000
                 (mkCreate "Pay rent" None None DueUndefined None) [] in
    result created = Ok old
    /\ result (updateTask exampleParse 1000 1000 1000 idA emptyPatch (store created))
       = Ok (Some new)
    /\ updatedAt old = 1000
    /\ updatedAt new = 1000
    /\ ~ updatedAt old < updatedAt new.
Proof.
  eexists. eexists. cbv zeta.
  split; [reflexivity |]. split; [reflexivity |].
  split; [reflexivity |]. split; [reflexivity |].
  cbn. lia.
Qed.

(** ** A due date, once set, stays set *)

(** C10: for every existing task that has a due date, whatever
    [updateTask] is called with, the task still has a due date afterwards:
    a patch whose [dueDate] is absent or falsy leaves the stored date as it
    was, and any other patch either leaves it as it was or replaces it by a
    date later than the clock readings of the call. *)
Theorem updateTask_never_clears_dueDate :
  forall (Date_parse : string -> DateObj) (t_check t_stamp t_valid : Z)
         (id : string) (updates : UpdateTaskRequest) (st : Store)
         (old : Task) (d : Z),
    Task_findById id st = Some old ->
    dueDate old = Some d ->
    exists (cur : Task) (d' : Z),
      Task_findById id
        (store (updateTask Date_parse t_check t_stamp t_valid id updates st))
      = Some cur
      /\ dueDate cur = Some d'
      /\ (truthyDue (p_dueDate updates) = false -> d' = d)
      /\ (d' = d
          \/ (newDate Date_parse (p_dueDate updates) = ValidDate d'
              /\ t_check < d' /\ t_valid < d')).
Proof.
  intros Date_parse t_check t_stamp t_valid id updates st old d Hold Hd.
  assert (Hsame : forall o : Outcome (option Task),
             store o = st ->
             exists cur d',
               Task_findById id (store o) = Some cur
               /\ dueDate cur = Some d'
               /\ (truthyDue (p_dueDate updates) = false -> d' = d)
               /\ (d' = d
                   \/ (newDate Date_parse (p_dueDate updates) = ValidDate d'
                       /\ t_check < d' /\ t_valid < d'))).
  { intros o Ho. exists old, d. rewrite Ho. auto. }
  destruct (isValidId id) eqn:Hid;
    [| apply Hsame; rewrite updateTask_invalid_id by exact Hid; reflexivity].
  destruct (patchAccepted Date_parse t_check t_stamp t_valid updates) eqn:Hacc.
  - destruct (updateTask_accepted Date_parse t_check t_stamp t_valid id updates
                st old Hid Hold Hacc) as (s & Hcast & Hfail & _ & Hfind).
    unfold patchAccepted in Hacc. apply andb_true_iff in Hacc.
    destruct Hacc as [Hdue _]. apply negb_true_iff in Hdue.
    unfold castUpdate, updateDataOf, convertDue in Hcast.
    cbn [u_title u_description u_priority u_dueDate u_tags u_isCompleted
         u_updatedAt] in Hcast.
    unfold dueNotInFuture in Hdue.
    destruct (truthyDue (p_dueDate updates)) eqn:Htruthy.
    + destruct (newDate Date_parse (p_dueDate updates)) as [d' |] eqn:Hnew;
        [| discriminate Hcast].
      injection Hcast as <-.
      exists (applyUpdate
                (mkCastUpdate (option_map trim (p_title updates))
                              (option_map trim (p_description updates))
                              (p_priority updates) (Some d')
                              (option_map (map trim) (p_tags updates))
                              (p_isCompleted updates) t_stamp) old), d'.
      split; [exact Hfind |]. split; [reflexivity |].
      split; [discriminate |]. right.
      split; [reflexivity |].
      cbn in Hdue. apply Z.leb_gt in Hdue. split; [exact Hdue |].
      unfold updateFailures in Hfail. cbn [s_dueDate checkOpt] in Hfail.
      apply app_eq_nil in Hfail. destruct Hfail as [_ Hfail].
      apply app_eq_nil in Hfail. destruct Hfail as [_ Hfail].
      apply app_eq_nil in Hfail. destruct Hfail as [_ Hfail].
      unfold failing, validDueDate in Hfail.
      destruct (t_valid <? d') eqn:Hv; [| discriminate Hfail].
      apply Z.ltb_lt, Hv.
    + injection Hcast as <-.
      eexists. exists d.
      split; [exact Hfind |]. split; [exact Hd |]. auto.
  - destruct (updateTask_rejected Date_parse t_check t_stamp t_valid id updates
                st Hid Hacc) as (e & He & _).
    apply Hsame. exact (updateTask_error_keeps_store Date_parse t_check t_stamp
                          t_valid id updates st e He).
Qed.

(** [{ dueDate: null }] on "Pay rent", due at 5000: the date stays. *)
Lemma updateTask_never_clears_dueDate_witness :
  exists (cur : Task) (d' : Z),
    Task_findById idA
      (store (updateTask exampleParse 3000 3000 3000 idA
                (mkUpdate None None None DueNull None None) exampleStore))
    = Some cur
    /\ dueDate cur = Some d'
    /\ d' = 5000.
Proof.
  destruct (updateTask_never_clears_dueDate exampleParse 3000 3000 3000 idA
              (mkUpdate None None None DueNull None None) exampleStore
              taskA 5000 eq_refl eq_refl)
    as (cur & d' & Hfind & Hdue & Hfalsy & _).
  exists cur, d'. split; [exact Hfind |]. split; [exact Hdue |].
  apply Hfalsy. reflexivity.
Defined.

(** * Further properties of the service *)

(** ** The shape of the collection after each operation *)

Lemma sameObjectId_refl (id : string) : sameObjectId id id = true.
Proof. apply String.eqb_refl. Qed.

Lemma sameObjectId_true (a b : string) :
  sameObjectId a b = true <-> objectIdOf a = objectIdOf b.
Proof. apply String.eqb_eq. Qed.

Lemma sameObjectId_false (a b : string) :
  sameObjectId a b = false <-> objectIdOf a <> objectIdOf b.
Proof. apply String.eqb_neq. Qed.

Lemma Task_findById_None_iff (id : string) (st : Store) :
  Task_findById id st = None
  <-> ~ In (objectIdOf id) (map (fun t => objectIdOf (_id t)) st).
Proof.
  unfold Task_findById.
  induction st as [| t r IH]; simpl.
  - split; [intros _ [] | reflexivity].
  - destruct (sameObjectId (_id t) id) eqn:E.
    + apply sameObjectId_true in E.
      split; [discriminate | intro H; elim H; left; exact E].
    + apply sameObjectId_false in E. rewrite IH. tauto.
Qed.

Lemma Task_findById_None_not_In (id : string) (st : Store) :
  Task_findById id st = None -> ~ In id (map _id st).
Proof.
  intros H Hin. apply Task_findById_None_iff in H. apply H.
  apply in_map_iff in Hin. destruct Hin as (t & <- & Ht).
  apply in_map_iff. exists t. split; [reflexivity | exact Ht].
Qed.

Lemma Task_findById_split (id : string) (st : Store) (old : Task) :
  Task_findById id st = Some old ->
  exists pre post,
    st = (pre ++ old :: post)%list
    /\ Task_findById id pre = None
    /\ sameObjectId (_id old) id = true.
Proof.
  unfold Task_findById.
  induction st as [| t r IH]; simpl; [discriminate |].
  destruct (sameObjectId (_id t) id) eqn:E.
  - intro H. injection H as <-. exists [], r.
    repeat split; [exact E].
  - intro H. destruct (IH H) as (pre & post & -> & Hpre & Hid).
    exists (t :: pre), post. simpl. rewrite E. repeat split; assumption.
Qed.

Lemma Task_findById_app (id : string) (pre l : Store) :
  Task_findById id pre = None ->
  Task_findById id (pre ++ l)%list = Task_findById id l.
Proof.
  unfold Task_findById.
  induction pre as [| t r IH]; simpl; [reflexivity |].
  destruct (sameObjectId (_id t) id); [discriminate | exact IH].
Qed.

Lemma Task_findById_head (id : string) (t : Task) (l : Store) :
  sameObjectId (_id t) id = true -> Task_findById id (t :: l) = Some t.
Proof.
  intro H. unfold Task_findById. simpl.
  rewrite H. reflexivity.
Qed.

Lemma updateById_split (id : string) (f : Task -> Task) (pre post : Store)
    (old : Task) :
  Task_findById id pre = None ->
  sameObjectId (_id old) id = true ->
  updateById id f (pre ++ old :: post)%list = (Some (f old), (pre ++ f old :: post)%list).
Proof.
  unfold Task_findById. intros Hpre Hid.
  induction pre as [| t r IH]; simpl in *.
  - rewrite Hid. reflexivity.
  - destruct (sameObjectId (_id t) id); [discriminate |].
    rewrite (IH Hpre). reflexivity.
Qed.

Lemma Task_findByIdAndDelete_split (id : string) (pre post : Store) (old : Task) :
  Task_findById id pre = None ->
  sameObjectId (_id old) id = true ->
  Task_findByIdAndDelete id (pre ++ old :: post)%list = (Some old, (pre ++ post)%list).
Proof.
  unfold Task_findById. intros Hpre Hid.
  induction pre as [| t r IH]; simpl in *.
  - rewrite Hid. reflexivity.
  - destruct (sameObjectId (_id t) id); [discriminate |].
    rewrite (IH Hpre). reflexivity.
Qed.

(** What [updateTask] can do to the collection: nothing, or replace the
    first task with the id by its update. *)
Lemma updateTask_store_cases (Date_parse : string -> DateObj)
    (t_check t_stamp t_valid : Z) (id : string) (updates : UpdateTaskRequest)
    (st : Store) :
  store (updateTask Date_parse t_check t_stamp t_valid id updates st) = st
  \/ exists s pre old post,
       st = (pre ++ old :: post)%list
       /\ Task_findById id pre = None
       /\ sameObjectId (_id old) id = true
       /\ castUpdate (updateDataOf Date_parse t_stamp updates) = Ok s
       /\ updateFailures t_valid s = []
       /\ result (updateTask Date_parse t_check t_stamp t_valid id updates st)
          = Ok (Some (applyUpdate s old))
       /\ store (updateTask Date_parse t_check t_stamp t_valid id updates st)
          = (pre ++ applyUpdate s old :: post)%list.
Proof.
  destruct (isValidId id) eqn:Hid;
    [| left; rewrite updateTask_invalid_id by exact Hid; reflexivity].
  destruct (dueNotInFuture Date_parse (p_dueDate updates) t_check) eqn:Hdue;
    [left; rewrite updateTask_due_rejected by assumption; reflexivity |].
  rewrite (updateTask_reaches_store Date_parse t_check t_stamp t_valid id updates
             st Hid Hdue).
  cbn [result store]. unfold Task_findByIdAndUpdate.
  destruct (castUpdate (updateDataOf Date_parse t_stamp updates)) as [s | e] eqn:Hc;
    [| left; reflexivity].
  destruct (updateFailures t_valid s) eqn:Hf; [| left; reflexivity].
  destruct (Task_findById id st) as [old |] eqn:Hfind.
  - right. destruct (Task_findById_split id st old Hfind) as (pre & post & -> & Hpre & Hold).
    exists s, pre, old, post.
    rewrite (updateById_split id (applyUpdate s) pre post old Hpre Hold).
    cbn [fst snd]. repeat split; try assumption; reflexivity.
  - left. rewrite (updateById_absent id (applyUpdate s) st Hfind). reflexivity.
Qed.

(** What [createTask] can do to the collection: nothing, with an error, or
    append the new document. *)
Lemma createTask_cases (Date_parse : string -> DateObj) (t_check : Z)
    (oid : string) (t_created t_valid t_save : Z) (taskdata : CreateTaskRequest)
    (st : Store) :
  (exists e,
      result (createTask Date_parse t_check oid t_created t_valid t_save taskdata st)
      = Err e
      /\ store (createTask Date_parse t_check oid t_created t_valid t_save taskdata st)
         = st)
  \/ (dueNotInFuture Date_parse (c_dueDate taskdata) t_check = false
      /\ saveFailures t_valid (taskInitOf Date_parse taskdata) = []
      /\ Task_findById oid st = None
      /\ createTask Date_parse t_check oid t_created t_valid t_save taskdata st
         = mkOutcome
             (Ok (newTask oid t_created t_save (taskInitOf Date_parse taskdata)))
             (st ++ [newTask oid t_created t_save (taskInitOf Date_parse taskdata)])%list
             [CallSave]).
Proof.
  unfold createTask.
  destruct (dueNotInFuture Date_parse (c_dueDate taskdata) t_check) eqn:Hdue.
  - left. eexists. split; reflexivity.
  - fold (taskInitOf Date_parse taskdata). unfold Task_save.
    destruct (saveFailures t_valid (taskInitOf Date_parse taskdata)) eqn:Hf.
    + destruct (Task_findById oid st) eqn:Hfind.
      * left. eexists. split; reflexivity.
      * right. repeat split; reflexivity.
    + left. eexists. split; reflexivity.
Qed.

(** What [deleteTask] can do to the collection: nothing, or remove the
    first task with the id. *)
Lemma deleteTask_cases (id : string) (st : Store) :
  (store (deleteTask id st) = st /\ result (deleteTask id st) <> Ok true)
  \/ exists pre old post,
       st = (pre ++ old :: post)%list
       /\ Task_findById id pre = None
       /\ sameObjectId (_id old) id = true
       /\ deleteTask id st
          = mkOutcome (Ok true) (pre ++ post)%list [CallFindByIdAndDelete].
Proof.
  unfold deleteTask.
  destruct (isValidId id) eqn:Hid; cbn [negb].
  - destruct (Task_findById id st) as [old |] eqn:Hfind.
    + right. destruct (Task_findById_split id st old Hfind) as (pre & post & -> & Hpre & Hold).
      exists pre, old, post.
      rewrite (Task_findByIdAndDelete_split id pre post old Hpre Hold).
      repeat split; assumption.
    + left. rewrite (Task_findByIdAndDelete_absent id st Hfind).
      split; [reflexivity | discriminate].
  - left. split; [reflexivity | discriminate].
Qed.

(** ** Creating *)

(** X1: [createTask] is all or nothing.  Either it fails and the
    collection is as before, or it returns the new task and the collection
    is the old one with exactly that task appended; the new task carries
    the generated id, is not completed, is stamped with the clock readings
    of its construction ([createdAt]) and of the save hook ([updatedAt]),
    and holds the request's strings trimmed and the defaults of the
    schema. *)
Theorem createTask_all_or_nothing :
  forall (Date_parse : string -> DateObj) (t_check : Z) (oid : string)
         (t_created t_valid t_save : Z) (taskdata : CreateTaskRequest)
         (st : Store),
    let o := createTask Date_parse t_check oid t_created t_valid t_save taskdata st in
    (exists e, result o = Err e /\ store o = st)
    \/ (exists task,
          result o = Ok task
          /\ store o = (st ++ [task])%list
          /\ _id task = oid
          /\ title task = trim (c_title taskdata)
          /\ description task = option_map trim (c_description taskdata)
          /\ isCompleted task = false
          /\ priority task = orElse (c_priority taskdata) "medium"
          /\ tags task = map trim (orElse (c_tags taskdata) [])
          /\ createdAt task = t_created
          /\ updatedAt task = t_save).
Proof.
  intros Date_parse t_check oid t_created t_valid t_save taskdata st o. subst o.
  destruct (createTask_cases Date_parse t_check oid t_created t_valid t_save
              taskdata st) as [Herr | (_ & _ & _ & ->)].
  - left. exact Herr.
  - right. eexists. cbn [result store].
    repeat split; reflexivity.
Qed.

(** X2: a task that [createTask] returned can be read back: [getTaskById]
    on its id, in the collection the creation left, returns that very task;
    and every task that could be looked up before still can. *)
Theorem createTask_then_getTaskById :
  forall (Date_parse : string -> DateObj) (t_check : Z) (oid : string)
         (t_created t_valid t_save : Z) (taskdata : CreateTaskRequest)
         (st : Store) (task : Task),
    isValidId oid = true ->
    result (createTask Date_parse t_check oid t_created t_valid t_save taskdata st)
    = Ok task ->
    let st' :=
      store (createTask Date_parse t_check oid t_created t_valid t_save taskdata st) in
    getTaskById oid st' = mkOutcome (Ok (Some task)) st' [CallFindById]
    /\ forall id' t',
         Task_findById id' st = Some t' -> Task_findById id' st' = Some t'.
Proof.
  intros Date_parse t_check oid t_created t_valid t_save taskdata st task Hid Hres st'.
  subst st'.
  destruct (createTask_cases Date_parse t_check oid t_created t_valid t_save
              taskdata st) as [(e & He & _) | (_ & _ & Hfresh & Hcreate)].
  - rewrite He in Hres. discriminate.
  - rewrite Hcreate in *. cbn [result store] in *. injection Hres as <-.
    split.
    + unfold getTaskById. rewrite Hid. cbn [negb].
      rewrite (Task_findById_app oid st _ Hfresh), Task_findById_head by apply sameObjectId_refl.
      reflexivity.
    + intros id' t' Hfind.
      destruct (Task_findById_split id' st t' Hfind) as (pre & post & -> & Hpre & Ht').
      rewrite <- app_assoc, (Task_findById_app id' pre _ Hpre).
      apply Task_findById_head, Ht'.
Qed.

(** Creating "Water plants" in the example collection and reading it back. *)
Lemma createTask_then_getTaskById_witness :
  exists task,
    result (getTaskById idAbsent
              (store (createTask exampleParse 3000 idAbsent 3000 3000 3000
                        (mkCreate "Water plants" None None DueUndefined None)
                        exampleStore)))
    = Ok (Some task)
    /\ title task = "Water plants".
Proof.
  eexists. split.
  - rewrite (proj1 (createTask_then_getTaskById exampleParse 3000 idAbsent 3000 3000
                      3000 (mkCreate "Water plants" None None DueUndefined None)
                      exampleStore _ eq_refl eq_refl)).
    reflexivity.
  - reflexivity.
Defined.

Lemma failing_nil (path : string) (ok : bool) : failing path ok = [] -> ok = true.
Proof. destruct ok; [reflexivity | discriminate]. Qed.

Lemma newTask_satisfiesSchema (oid : string) (t_created t_valid t_save : Z)
    (i : TaskInit) :
  saveFailures t_valid i = [] ->
  satisfiesSchema (newTask oid t_created t_save i) = true.
Proof.
  unfold saveFailures. intro Hfail.
  apply app_eq_nil in Hfail. destruct Hfail as [Htitle Hfail].
  apply app_eq_nil in Hfail. destruct Hfail as [Hdesc Hfail].
  apply app_eq_nil in Hfail. destruct Hfail as [Hprio _].
  apply failing_nil in Htitle.
  unfold satisfiesSchema, newTask. cbn [title description priority].
  rewrite Htitle. cbn [andb].
  apply andb_true_iff. split.
  - destruct (i_description i) as [d |]; [| reflexivity].
    cbn in Hdesc |- *. apply failing_nil in Hdesc. exact Hdesc.
  - destruct (i_priority i) as [p |]; [| reflexivity].
    cbn in Hprio |- *. apply failing_nil in Hprio. exact Hprio.
Qed.

(** X3: whatever [createTask] persists satisfies the schema: the stored
    title is non-empty and at most 200 characters, the description at most
    1000, the priority one of low, medium, high; a due date, when stored,
    is later than the clock both at the service's check and at the
    validator's; and a request with a falsy due date stores none. *)
Theorem createTask_result_satisfies_schema :
  forall (Date_parse : string -> DateObj) (t_check : Z) (oid : string)
         (t_created t_valid t_save : Z) (taskdata : CreateTaskRequest)
         (st : Store) (task : Task),
    result (createTask Date_parse t_check oid t_created t_valid t_save taskdata st)
    = Ok task ->
    satisfiesSchema task = true
    /\ (forall d, dueDate task = Some d ->
                  newDate Date_parse (c_dueDate taskdata) = ValidDate d
                  /\ t_check < d /\ t_valid < d)
    /\ (truthyDue (c_dueDate taskdata) = false -> dueDate task = None).
Proof.
  intros Date_parse t_check oid t_created t_valid t_save taskdata st task Hres.
  destruct (createTask_cases Date_parse t_check oid t_created t_valid t_save
              taskdata st) as [(e & He & _) | (Hdue & Hfail & _ & Hcreate)].
  - rewrite He in Hres. discriminate.
  - rewrite Hcreate in Hres. cbn [result] in Hres. injection Hres as <-.
    pose proof Hfail as Hfail0.
    unfold saveFailures, taskInitOf in Hfail.
    cbn [i_title i_description i_priority i_dueDate] in Hfail.
    apply app_eq_nil in Hfail. destruct Hfail as [Htitle Hfail].
    apply app_eq_nil in Hfail. destruct Hfail as [Hdesc Hfail].
    apply app_eq_nil in Hfail. destruct Hfail as [Hprio Hdate].
    apply failing_nil in Htitle.
    unfold dueNotInFuture in Hdue. unfold convertDue in Hdate.
    split; [| split].
    + apply (newTask_satisfiesSchema oid t_created t_valid t_save), Hfail0.
    + intros d Hd. unfold newTask, taskInitOf, convertDue in Hd.
      cbn [dueDate i_dueDate] in Hd.
      destruct (truthyDue (c_dueDate taskdata)); [| discriminate Hd].
      destruct (newDate Date_parse (c_dueDate taskdata)) as [d' |];
        [| discriminate Hd].
      injection Hd as ->. split; [reflexivity |].
      cbn in Hdue. apply Z.leb_gt in Hdue.
      apply failing_nil, Z.ltb_lt in Hdate. split; assumption.
    + intro Hfalsy. unfold newTask, taskInitOf, convertDue.
      cbn [dueDate i_dueDate]. rewrite Hfalsy. reflexivity.
Qed.

(** A task due in 2030, created at a moment in 2023. *)
Lemma createTask_result_satisfies_schema_witness :
  satisfiesSchema
    (newTask idAbsent 1700000000000 1700000000000
       (taskInitOf exampleParse
          (mkCreate " Renew passport " None (Some "high")
                    (DueString "2030-01-01T00:00:00.000Z") None)))
  = true.
Proof.
  exact (proj1 (createTask_result_satisfies_schema exampleParse 1700000000000
                  idAbsent 1700000000000 1700000000000 1700000000000
                  (mkCreate " Renew passport " None (Some "high")
                            (DueString "2030-01-01T00:00:00.000Z") None)
                  exampleStore _ eq_refl)).
Defined.

(** ** Deleting *)

Lemma uniqueObjectIds_middle (id : string) (pre post : Store) (x : Task) :
  uniqueObjectIds (pre ++ x :: post)%list ->
  sameObjectId (_id x) id = true ->
  Task_findById id (pre ++ post)%list = None.
Proof.
  unfold uniqueObjectIds. intros Huniq Hx.
  rewrite map_app in Huniq. cbn [map] in Huniq.
  apply NoDup_remove_2 in Huniq.
  apply sameObjectId_true in Hx. rewrite Hx, <- map_app in Huniq.
  apply Task_findById_None_iff, Huniq.
Qed.

Lemma Task_findById_None_In (id : string) (st : Store) (t : Task) :
  Task_findById id st = None -> In t st -> sameObjectId (_id t) id = false.
Proof.
  intros Hnone Hin. apply sameObjectId_false. intro Heq.
  apply Task_findById_None_iff in Hnone. apply Hnone.
  rewrite <- Heq. apply (in_map (fun t => objectIdOf (_id t))), Hin.
Qed.

Lemma exampleStore_uniqueObjectIds : uniqueObjectIds exampleStore.
Proof.
  unfold uniqueObjectIds. cbn.
  constructor; [| constructor; [intros [] | constructor]].
  intros [H | []]. discriminate H.
Qed.

(** X4: deleting an existing task from a collection in which no two tasks
    share an ObjectId succeeds and removes that task and no other: the
    collection shrinks by one and keeps exactly the tasks whose id names
    another ObjectId than the given string, in whatever case it is spelled;
    afterwards the id is gone, so [getTaskById] returns [null] and a second
    [deleteTask] returns [false] and changes nothing. *)
Theorem deleteTask_removes_exactly_that_task :
  forall (id : string) (st : Store) (old : Task),
    isValidId id = true ->
    uniqueObjectIds st ->
    Task_findById id st = Some old ->
    let o := deleteTask id st in
    result o = Ok true
    /\ (List.length (store o) + 1 = List.length st)%nat
    /\ (forall t, In t (store o) <-> In t st /\ sameObjectId (_id t) id = false)
    /\ getTaskById id (store o) = mkOutcome (Ok None) (store o) [CallFindById]
    /\ deleteTask id (store o)
       = mkOutcome (Ok false) (store o) [CallFindByIdAndDelete].
Proof.
  intros id st old Hid Huniq Hfind o. subst o.
  destruct (deleteTask_cases id st) as [[Hst Hres] | (pre & x & post & -> & Hpre & Hx & Hdel)].
  - exfalso. apply Hres. unfold deleteTask. rewrite Hid. cbn [negb].
    destruct (Task_findById_split id st old Hfind) as (pre & post & -> & Hpre & Hold).
    rewrite (Task_findByIdAndDelete_split id pre post old Hpre Hold). reflexivity.
  - rewrite Hdel. cbn [result store].
    pose proof (uniqueObjectIds_middle id pre post x Huniq Hx) as Hgone.
    split; [reflexivity |]. split; [rewrite !length_app; cbn; lia |].
    split; [| split].
    + intro t. split.
      * intro Hin. split.
        -- apply in_app_or in Hin. apply in_or_app.
           destruct Hin as [H | H]; [left; exact H | right; right; exact H].
        -- apply (Task_findById_None_In id _ t Hgone Hin).
      * intros [Hin Hne]. apply in_app_or in Hin. apply in_or_app.
        destruct Hin as [H | [H | H]]; [left; exact H | | right; exact H].
        subst t. congruence.
    + unfold getTaskById. rewrite Hid, Hgone. reflexivity.
    + unfold deleteTask. rewrite Hid. cbn [negb].
      rewrite (Task_findByIdAndDelete_absent id _ Hgone). reflexivity.
Qed.

(** Deleting "Pay rent" from the example collection, the id spelled in
    upper case, leaves the other task. *)
Lemma deleteTask_removes_exactly_that_task_witness :
  result (deleteTask "64B7F0C2A1D3E4F5A6B7C8D9" exampleStore) = Ok true
  /\ deleteTask "64B7F0C2A1D3E4F5A6B7C8D9"
                (store (deleteTask "64B7F0C2A1D3E4F5A6B7C8D9" exampleStore))
     = mkOutcome (Ok false) [taskB] [CallFindByIdAndDelete].
Proof.
  destruct (deleteTask_removes_exactly_that_task "64B7F0C2A1D3E4F5A6B7C8D9"
              exampleStore taskA eq_refl exampleStore_uniqueObjectIds eq_refl)
    as (H1 & _ & _ & _ & H5).
  split; [exact H1 | exact H5].
Defined.

(** ** Invariants of the collection *)

Lemma applyUpdate_createdAt (s : CastUpdate) (t : Task) :
  createdAt (applyUpdate s t) = createdAt t.
Proof. reflexivity. Qed.

(** X5: the three writing operations keep the ids of the collection
    distinct: [createTask] refuses an id that is taken, [updateTask] never
    changes an id, [deleteTask] only removes. *)
Theorem writes_keep_ids_unique :
  forall (Date_parse : string -> DateObj) (st : Store),
    uniqueIds st ->
    (forall (t_check : Z) (oid : string) (t_created t_valid t_save : Z)
            (taskdata : CreateTaskRequest),
        uniqueIds (store (createTask Date_parse t_check oid t_created t_valid
                            t_save taskdata st)))
    /\ (forall (t_check t_stamp t_valid : Z) (id : string)
               (updates : UpdateTaskRequest),
          uniqueIds (store (updateTask Date_parse t_check t_stamp t_valid id
                              updates st)))
    /\ (forall id : string, uniqueIds (store (deleteTask id st))).
Proof.
  intros Date_parse st Huniq. split; [| split].
  - intros t_check oid t_created t_valid t_save taskdata.
    destruct (createTask_cases Date_parse t_check oid t_created t_valid t_save
                taskdata st) as [(e & _ & ->) | (_ & _ & Hfresh & ->)];
      [exact Huniq |].
    cbn [store]. unfold uniqueIds in *. rewrite map_app. cbn [map].
    apply NoDup_app; [exact Huniq | | ].
    + constructor; [intros [] | constructor].
    + intros x Hx [<- | []].
      apply Task_findById_None_not_In in Hfresh. apply Hfresh. exact Hx.
  - intros t_check t_stamp t_valid id updates.
    destruct (updateTask_store_cases Date_parse t_check t_stamp t_valid id updates st)
      as [-> | (s & pre & old & post & -> & _ & _ & _ & _ & _ & ->)];
      [exact Huniq |].
    unfold uniqueIds in *. rewrite map_app in *. cbn [map] in *.
    rewrite applyUpdate_id. exact Huniq.
  - intro id.
    destruct (deleteTask_cases id st) as [[-> _] | (pre & old & post & -> & _ & _ & ->)];
      [exact Huniq |].
    cbn [store]. unfold uniqueIds in *. rewrite map_app in *. cbn [map] in Huniq.
    apply NoDup_remove_1 in Huniq. exact Huniq.
Qed.

(** The example collection, after creating a third task. *)
Lemma writes_keep_ids_unique_witness :
  uniqueIds (store (createTask exampleParse 3000 idAbsent 3000 3000 3000
                      (mkCreate "Water plants" None None DueUndefined None)
                      exampleStore)).
Proof.
  assert (Huniq : uniqueIds exampleStore).
  { unfold uniqueIds. cbn.
    constructor; [| constructor; [intros [] | constructor]].
    intros [H | []]. discriminate H. }
  apply (proj1 (writes_keep_ids_unique exampleParse exampleStore Huniq)).
Defined.

(** X26: the three writing operations keep the ObjectIds of the
    collection distinct, in whatever case ids are spelled: [createTask]
    refuses an id whose ObjectId is taken, [updateTask] never changes an
    id, [deleteTask] only removes. *)
Theorem writes_keep_objectIds_unique :
  forall (Date_parse : string -> DateObj) (st : Store),
    uniqueObjectIds st ->
    (forall (t_check : Z) (oid : string) (t_created t_valid t_save : Z)
            (taskdata : CreateTaskRequest),
        uniqueObjectIds (store (createTask Date_parse t_check oid t_created t_valid
                                  t_save taskdata st)))
    /\ (forall (t_check t_stamp t_valid : Z) (id : string)
               (updates : UpdateTaskRequest),
          uniqueObjectIds (store (updateTask Date_parse t_check t_stamp t_valid id
                                    updates st)))
    /\ (forall id : string, uniqueObjectIds (store (deleteTask id st))).
Proof.
  intros Date_parse st Huniq. split; [| split].
  - intros t_check oid t_created t_valid t_save taskdata.
    destruct (createTask_cases Date_parse t_check oid t_created t_valid t_save
                taskdata st) as [(e & _ & ->) | (_ & _ & Hfresh & ->)];
      [exact Huniq |].
    cbn [store]. unfold uniqueObjectIds in *. rewrite map_app. cbn [map].
    apply NoDup_app; [exact Huniq | | ].
    + constructor; [intros [] | constructor].
    + intros x Hx [<- | []].
      apply Task_findById_None_iff in Hfresh. apply Hfresh. exact Hx.
  - intros t_check t_stamp t_valid id updates.
    destruct (updateTask_store_cases Date_parse t_check t_stamp t_valid id updates st)
      as [-> | (s & pre & old & post & -> & _ & _ & _ & _ & _ & ->)];
      [exact Huniq |].
    unfold uniqueObjectIds in *. rewrite map_app in *. cbn [map] in *.
    rewrite applyUpdate_id. exact Huniq.
  - intro id.
    destruct (deleteTask_cases id st) as [[-> _] | (pre & old & post & -> & _ & _ & ->)];
      [exact Huniq |].
    cbn [store]. unfold uniqueObjectIds in *. rewrite map_app in *. cbn [map] in Huniq.
    apply NoDup_remove_1 in Huniq. exact Huniq.
Qed.

(** Creating under the upper-case spelling of a stored id is refused, and
    the example collection keeps its ObjectIds distinct. *)
Lemma writes_keep_objectIds_unique_witness :
  result (createTask exampleParse 3000 "64B7F0C2A1D3E4F5A6B7C8D9" 3000 3000 3000
            (mkCreate "Water plants" None None DueUndefined None) exampleStore)
  = Err DuplicateKey
  /\ uniqueObjectIds
       (store (createTask exampleParse 3000 "64B7F0C2A1D3E4F5A6B7C8D9" 3000 3000 3000
                 (mkCreate "Water plants" None None DueUndefined None)
                 exampleStore)).
Proof.
  split; [reflexivity |].
  apply (proj1 (writes_keep_objectIds_unique exampleParse exampleStore
                  exampleStore_uniqueObjectIds)).
Defined.

(** X6: an update touches one task at most.  Whatever [updateTask] is
    called with, the collection afterwards holds the same ids and the same
    [createdAt] stamps in the same order, and every task whose id names
    another ObjectId than the given string, in whatever case it is spelled,
    sits unchanged at its position. *)
Theorem updateTask_frame :
  forall (Date_parse : string -> DateObj) (t_check t_stamp t_valid : Z)
         (id : string) (updates : UpdateTaskRequest) (st : Store),
    let st' := store (updateTask Date_parse t_check t_stamp t_valid id updates st) in
    map _id st' = map _id st
    /\ map createdAt st' = map createdAt st
    /\ (forall (i : nat) (t : Task),
          nth_error st i = Some t ->
          sameObjectId (_id t) id = false ->
          nth_error st' i = Some t).
Proof.
  intros Date_parse t_check t_stamp t_valid id updates st st'. subst st'.
  destruct (updateTask_store_cases Date_parse t_check t_stamp t_valid id updates st)
    as [-> | (s & pre & old & post & -> & _ & Hold & _ & _ & _ & ->)].
  - repeat split. intros i t H _. exact H.
  - split; [| split].
    + rewrite !map_app. reflexivity.
    + rewrite !map_app. reflexivity.
    + intros i t Hnth Hne.
      destruct (Nat.lt_ge_cases i (List.length pre)) as [Hlt | Hge].
      * rewrite nth_error_app1 in * by exact Hlt. exact Hnth.
      * rewrite nth_error_app2 in * by exact Hge.
        destruct (i - List.length pre)%nat as [| k]; cbn in *.
        -- injection Hnth as <-. congruence.
        -- exact Hnth.
Qed.

(** Renaming "Pay rent", its id spelled in upper case, leaves the other
    task of the example collection at its position. *)
Lemma updateTask_frame_witness :
  nth_error (store (updateTask exampleParse 3000 3000 3000
                      "64B7F0C2A1D3E4F5A6B7C8D9"
                      (mkUpdate (Some "Pay the rent") None None DueUndefined None None)
                      exampleStore)) 1
  = Some taskB.
Proof.
  apply (proj2 (proj2 (updateTask_frame exampleParse 3000 3000 3000
                         "64B7F0C2A1D3E4F5A6B7C8D9"
                         (mkUpdate (Some "Pay the rent") None None DueUndefined
                                   None None)
                         exampleStore))).
  - reflexivity.
  - reflexivity.
Defined.

Lemma checkOpt_nil {A : Type} (path : string) (valid : A -> bool) (v : option A)
    (a : A) :
  checkOpt path valid v = [] -> v = Some a -> valid a = true.
Proof. intros H ->. cbn in H. apply failing_nil in H. exact H. Qed.

Lemma applyUpdate_satisfiesSchema (t_valid : Z) (s : CastUpdate) (old : Task) :
  updateFailures t_valid s = [] ->
  satisfiesSchema old = true ->
  satisfiesSchema (applyUpdate s old) = true.
Proof.
  unfold updateFailures, satisfiesSchema. intros Hfail Hold.
  apply app_eq_nil in Hfail. destruct Hfail as [Htitle Hfail].
  apply app_eq_nil in Hfail. destruct Hfail as [Hdesc Hfail].
  apply app_eq_nil in Hfail. destruct Hfail as [Hprio _].
  apply andb_true_iff in Hold. destruct Hold as [Hold Hp].
  apply andb_true_iff in Hold. destruct Hold as [Ht Hd].
  unfold applyUpdate. cbn [title description priority].
  rewrite !andb_true_iff. repeat split.
  - destruct (s_title s) as [x |] eqn:E; cbn; [| exact Ht].
    exact (checkOpt_nil _ _ _ x Htitle eq_refl).
  - destruct (s_description s) as [x |] eqn:E; [| exact Hd].
    exact (checkOpt_nil _ _ _ x Hdesc eq_refl).
  - destruct (s_priority s) as [x |] eqn:E; cbn; [| exact Hp].
    exact (checkOpt_nil _ _ _ x Hprio eq_refl).
Qed.

(** X7: the schema's field constraints are an invariant of the
    collection.  If every stored task has a valid title, description and
    priority, then so has every task after any [createTask], [updateTask]
    or [deleteTask], whether the call succeeds or fails. *)
Theorem writes_keep_schema :
  forall (Date_parse : string -> DateObj) (st : Store),
    Forall (fun t => satisfiesSchema t = true) st ->
    (forall (t_check : Z) (oid : string) (t_created t_valid t_save : Z)
            (taskdata : CreateTaskRequest),
        Forall (fun t => satisfiesSchema t = true)
               (store (createTask Date_parse t_check oid t_created t_valid
                         t_save taskdata st)))
    /\ (forall (t_check t_stamp t_valid : Z) (id : string)
               (updates : UpdateTaskRequest),
          Forall (fun t => satisfiesSchema t = true)
                 (store (updateTask Date_parse t_check t_stamp t_valid id
                           updates st)))
    /\ (forall id : string,
          Forall (fun t => satisfiesSchema t = true) (store (deleteTask id st))).
Proof.
  intros Date_parse st Hall. split; [| split].
  - intros t_check oid t_created t_valid t_save taskdata.
    destruct (createTask_cases Date_parse t_check oid t_created t_valid t_save
                taskdata st) as [(e & _ & ->) | (_ & Hfail & _ & ->)];
      [exact Hall |].
    cbn [store].
    apply Forall_app. split; [exact Hall |].
    constructor; [| constructor].
    apply (newTask_satisfiesSchema oid t_created t_valid t_save), Hfail.
  - intros t_check t_stamp t_valid id updates.
    destruct (updateTask_store_cases Date_parse t_check t_stamp t_valid id updates st)
      as [-> | (s & pre & old & post & -> & _ & _ & _ & Hfail & _ & ->)];
      [exact Hall |].
    apply Forall_app in Hall. destruct Hall as [Hpre Hrest].
    inversion Hrest as [| x l Hold Hpost]; subst.
    apply Forall_app. split; [exact Hpre |].
    constructor; [| exact Hpost].
    exact (applyUpdate_satisfiesSchema t_valid s old Hfail Hold).
  - intro id.
    destruct (deleteTask_cases id st) as [[-> _] | (pre & old & post & -> & _ & _ & ->)];
      [exact Hall |].
    cbn [store].
    apply Forall_app in Hall. destruct Hall as [Hpre Hrest].
    inversion Hrest; subst.
    apply Forall_app. split; assumption.
Qed.

(** An update that would empty the title of "Pay rent" is refused, and the
    example collection keeps satisfying the schema. *)
Lemma writes_keep_schema_witness :
  Forall (fun t => satisfiesSchema t = true)
         (store (updateTask exampleParse 3000 3000 3000 idA
                   (mkUpdate (Some "   ") None None DueUndefined None None)
                   exampleStore)).
Proof.
  assert (Hall : Forall (fun t => satisfiesSchema t = true) exampleStore)
    by (repeat constructor).
  apply (proj1 (proj2 (writes_keep_schema exampleParse exampleStore Hall))).
Defined.

(** X8: when the clock does not run backwards, [updatedAt] is never before
    [createdAt].  If that holds of every stored task, it holds after a
    [createTask] whose save hook reads the clock no earlier than its
    construction did, after an [updateTask] whose stamp is not before the
    creation of any stored task, and after any [deleteTask]. *)
Theorem writes_keep_stamps_ordered :
  forall (Date_parse : string -> DateObj) (st : Store),
    Forall stampsOrdered st ->
    (forall (t_check : Z) (oid : string) (t_created t_valid t_save : Z)
            (taskdata : CreateTaskRequest),
        t_created <= t_save ->
        Forall stampsOrdered
               (store (createTask Date_parse t_check oid t_created t_valid
                         t_save taskdata st)))
    /\ (forall (t_check t_stamp t_valid : Z) (id : string)
               (updates : UpdateTaskRequest),
          Forall (fun t => createdAt t <= t_stamp) st ->
          Forall stampsOrdered
                 (store (updateTask Date_parse t_check t_stamp t_valid id
                           updates st)))
    /\ (forall id : string, Forall stampsOrdered (store (deleteTask id st))).
Proof.
  intros Date_parse st Hall. split; [| split].
  - intros t_check oid t_created t_valid t_save taskdata Hclock.
    destruct (createTask_cases Date_parse t_check oid t_created t_valid t_save
                taskdata st) as [(e & _ & ->) | (_ & _ & _ & ->)];
      [exact Hall |].
    cbn [store]. apply Forall_app. split; [exact Hall |].
    constructor; [exact Hclock | constructor].
  - intros t_check t_stamp t_valid id updates Hclock.
    destruct (updateTask_store_cases Date_parse t_check t_stamp t_valid id updates st)
      as [-> | (s & pre & old & post & -> & _ & _ & Hcast & _ & _ & ->)];
      [exact Hall |].
    apply Forall_app in Hall. destruct Hall as [Hpre Hrest].
    inversion Hrest as [| x l Hold Hpost]; subst.
    apply Forall_app in Hclock. destruct Hclock as [_ Hclock].
    inversion Hclock as [| x l Hc _]; subst.
    apply Forall_app. split; [exact Hpre |].
    constructor; [| exact Hpost].
    unfold stampsOrdered, applyUpdate. cbn [createdAt updatedAt].
    unfold castUpdate in Hcast.
    destruct (u_dueDate (updateDataOf Date_parse t_stamp updates)) as [[d |] |];
      try discriminate; injection Hcast as <-; exact Hc.
  - intro id.
    destruct (deleteTask_cases id st) as [[-> _] | (pre & old & post & -> & _ & _ & ->)];
      [exact Hall |].
    cbn [store].
    apply Forall_app in Hall. destruct Hall as [Hpre Hrest].
    inversion Hrest; subst.
    apply Forall_app. split; assumption.
Qed.

(** Updating "Pay rent" (created at 1000) at time 3000. *)
Lemma writes_keep_stamps_ordered_witness :
  Forall stampsOrdered
         (store (updateTask exampleParse 3000 3000 3000 idA emptyPatch exampleStore)).
Proof.
  assert (Hall : Forall stampsOrdered exampleStore)
    by (repeat constructor; unfold stampsOrdered; cbn; lia).
  apply (proj1 (proj2 (writes_keep_stamps_ordered exampleParse exampleStore Hall))).
  repeat constructor; cbn; lia.
Defined.

(** ** Completion marks and the statistics *)

Lemma countIf_cons (P : Task -> bool) (t : Task) (l : Store) :
  countIf P (t :: l) = boolZ (P t) + countIf P l.
Proof.
  unfold countIf, boolZ. cbn [filter].
  destruct (P t); cbn [List.length]; lia.
Qed.

Lemma countIf_app (P : Task -> bool) (a b : Store) :
  countIf P (a ++ b)%list = countIf P a + countIf P b.
Proof.
  unfold countIf. rewrite filter_app, length_app. lia.
Qed.

Lemma getTaskStats_statsOf (now : Z) (st : Store) :
  getTaskStats now st
  = mkOutcome (Ok (statsOf now st)) st
              [CallCountDocuments; CallCountDocuments; CallCountDocuments;
               CallCountDocuments].
Proof.
  unfold getTaskStats, statsOf. do 2 f_equal.
  f_equal; unfold Task_countDocuments, countIf; do 2 f_equal;
    apply filter_ext_eq; intro t;
    unfold matchesQuery, isPending, isOverdue; cbn;
    rewrite ?eqb_true_r, ?eqb_false_r;
    destruct (isCompleted t); reflexivity.
Qed.

Section Marks.

Variable Date_parse : string -> DateObj.
Variables t_check t_stamp t_valid : Z.
Variable id : string.
Variable st : Store.
Variable old : Task.
Hypothesis id_valid : isValidId id = true.
Hypothesis old_found : Task_findById id st = Some old.

Lemma mark_applies (b : bool) :
  result (updateTask Date_parse t_check t_stamp t_valid id
            (mkUpdate None None None DueUndefined None (Some b)) st)
  = Ok (Some (withCompletion old b t_stamp))
  /\ exists pre post,
       st = (pre ++ old :: post)%list
       /\ store (updateTask Date_parse t_check t_stamp t_valid id
                   (mkUpdate None None None DueUndefined None (Some b)) st)
          = (pre ++ withCompletion old b t_stamp :: post)%list
       /\ Task_findById id pre = None.
Proof.
  destruct (Task_findById_split id st old old_found) as (pre & post & Hst & Hpre & Hold).
  rewrite updateTask_reaches_store by (exact id_valid || reflexivity).
  cbn [result store]. unfold Task_findByIdAndUpdate. cbn.
  rewrite Hst, (updateById_split id _ pre post old Hpre Hold). cbn [fst snd].
  split; [reflexivity |].
  exists pre, post. split; [reflexivity |]. split; [reflexivity | exact Hpre].
Qed.

End Marks.



(** X10: completing a pending task moves exactly one task from pending to
    completed.  The statistics read after [markTaskCompleted] show the same
    total, one more completed task, one fewer pending one, and an overdue
    count lower by one exactly when the task was overdue. *)
Theorem markTaskCompleted_moves_one :
  forall (Date_parse : string -> DateObj) (t_check t_stamp t_valid now : Z)
         (id : string) (st : Store) (old : Task),
    isValidId id = true ->
    Task_findById id st = Some old ->
    isCompleted old = false ->
    exists before after : TaskStats,
      result (getTaskStats now st) = Ok before
      /\ result (getTaskStats now
                   (store (markTaskCompleted Date_parse t_check t_stamp t_valid id st)))
         = Ok after
      /\ total after = total before
      /\ completed after = completed before + 1
      /\ pending after = pending before - 1
      /\ overdue after = overdue before - boolZ (isOverdue now old).
Proof.
  intros Date_parse t_check t_stamp t_valid now id st old Hid Hfind Hpending.
  unfold markTaskCompleted.
  destruct (mark_applies Date_parse t_check t_stamp t_valid id st old Hid Hfind true)
    as (_ & pre & post & Hst & Hstore & _).
  rewrite Hstore, Hst, !getTaskStats_statsOf. cbn [result].
  do 2 eexists. split; [reflexivity |]. split; [reflexivity |].
  unfold statsOf. cbn [total completed pending overdue].
  rewrite !countIf_app, !countIf_cons.
  unfold isPending, isOverdue.
  change (isCompleted (withCompletion old true t_stamp)) with true.
  change (dueDate (withCompletion old true t_stamp)) with (dueDate old).
  rewrite Hpending.
  destruct (match dueDate old with Some due => due <? now | None => false end);
    cbn [negb andb boolZ]; repeat split; lia.
Qed.

(** "Pay rent", due at 5000 and pending, completed: read at 6000 the
    statistics go from one overdue task to none. *)
Lemma markTaskCompleted_moves_one_witness :
  exists before after : TaskStats,
    result (getTaskStats 6000 exampleStore) = Ok before
    /\ result (getTaskStats 6000
                 (store (markTaskCompleted exampleParse 3000 3000 3000 idA
                           exampleStore)))
       = Ok after
    /\ total after = total before
    /\ completed after = completed before + 1
    /\ pending after = pending before - 1
    /\ overdue after = overdue before - boolZ (isOverdue 6000 taskA).
Proof.
  apply (markTaskCompleted_moves_one exampleParse 3000 3000 3000 6000 idA
           exampleStore taskA); reflexivity.
Defined.

(** X11: a created task enters the statistics as one more task and one
    more pending task; the completed count is unchanged, and so is the
    overdue count as long as the statistics are read no later than the
    task's due date, or the task has none. *)
Theorem createTask_enters_stats_as_pending :
  forall (Date_parse : string -> DateObj) (t_check : Z) (oid : string)
         (t_created t_valid t_save now : Z) (taskdata : CreateTaskRequest)
         (st : Store) (task : Task),
    result (createTask Date_parse t_check oid t_created t_valid t_save taskdata st)
    = Ok task ->
    exists before after : TaskStats,
      result (getTaskStats now st) = Ok before
      /\ result (getTaskStats now
                   (store (createTask Date_parse t_check oid t_created t_valid
                             t_save taskdata st)))
         = Ok after
      /\ total after = total before + 1
      /\ completed after = completed before
      /\ pending after = pending before + 1
      /\ overdue after = overdue before + boolZ (isOverdue now task)
      /\ ((forall d, dueDate task = Some d -> now <= d) ->
          overdue after = overdue before).
Proof.
  intros Date_parse t_check oid t_created t_valid t_save now taskdata st task Hres.
  destruct (createTask_cases Date_parse t_check oid t_created t_valid t_save
              taskdata st) as [(e & He & _) | (_ & _ & _ & Hcreate)].
  - rewrite He in Hres. discriminate.
  - rewrite Hcreate in *. cbn [result store] in *. injection Hres as <-.
    rewrite !getTaskStats_statsOf. cbn [result].
    do 2 eexists. split; [reflexivity |]. split; [reflexivity |].
    unfold statsOf. cbn [total completed pending overdue].
    set (nt := newTask oid t_created t_save (taskInitOf Date_parse taskdata)).
    assert (Hone : forall P, countIf P [nt] = boolZ (P nt)).
    { intro P. rewrite countIf_cons. unfold countIf. cbn [filter List.length]. lia. }
    assert (Hc : boolZ (isCompleted nt) = 0) by reflexivity.
    assert (Hp : boolZ (isPending nt) = 1) by reflexivity.
    rewrite !countIf_app, !Hone, Hc, Hp. cbn [boolZ].
    repeat split; try lia.
    intro Hdue.
    assert (Ho : isOverdue now nt = false).
    { unfold isOverdue.
      destruct (dueDate nt) as [d |] eqn:Hd; [| apply andb_false_r].
      specialize (Hdue d eq_refl).
      replace (d <? now) with false; [apply andb_false_r |].
      symmetry. apply Z.ltb_ge, Hdue. }
    rewrite Ho. cbn [boolZ]. lia.
Qed.

(** "Water plants", without a due date, joins the example collection. *)
Lemma createTask_enters_stats_as_pending_witness :
  exists before after : TaskStats,
    result (getTaskStats 6000 exampleStore) = Ok before
    /\ result (getTaskStats 6000
                 (store (createTask exampleParse 3000 idAbsent 3000 3000 3000
                           (mkCreate "Water plants" None None DueUndefined None)
                           exampleStore)))
       = Ok after
    /\ total after = total before + 1
    /\ pending after = pending before + 1.
Proof.
  destruct (createTask_enters_stats_as_pending exampleParse 3000 idAbsent 3000 3000
              3000 6000 (mkCreate "Water plants" None None DueUndefined None)
              exampleStore _ eq_refl)
    as (before & after & H1 & H2 & H3 & _ & H5 & _).
  exists before, after. repeat split; assumption.
Defined.

(** X12: on one collection the overdue count can only grow as time
    passes, while total, completed and pending do not depend on the clock;
    a pending task is not yet overdue at the instant of its due date. *)
Theorem getTaskStats_overdue_grows_with_time :
  forall (now later : Z) (st : Store),
    now <= later ->
    exists s s' : TaskStats,
      result (getTaskStats now st) = Ok s
      /\ result (getTaskStats later st) = Ok s'
      /\ total s' = total s
      /\ completed s' = completed s
      /\ pending s' = pending s
      /\ overdue s <= overdue s'
      /\ forall t, In t st -> dueDate t = Some now -> isOverdue now t = false.
Proof.
  intros now later st Hle.
  rewrite !getTaskStats_statsOf. cbn [result].
  do 2 eexists. split; [reflexivity |]. split; [reflexivity |].
  unfold statsOf. cbn [total completed pending overdue].
  repeat split.
  - unfold countIf. apply Nat2Z.inj_le, filter_length_le.
    intros t. unfold isOverdue.
    destruct (isCompleted t); [discriminate |]. cbn.
    destruct (dueDate t) as [d |]; [| discriminate].
    rewrite !Z.ltb_lt. lia.
  - intros t _ Hd. unfold isOverdue. rewrite Hd, Z.ltb_irrefl.
    apply andb_false_r.
Qed.

(** Between 4000 and 6000 "Pay rent", due at 5000, becomes overdue. *)
Lemma getTaskStats_overdue_grows_with_time_witness :
  exists s s' : TaskStats,
    result (getTaskStats 4000 exampleStore) = Ok s
    /\ result (getTaskStats 6000 exampleStore) = Ok s'
    /\ overdue s <= overdue s'.
Proof.
  assert (Hle : 4000 <= 6000) by lia.
  destruct (getTaskStats_overdue_grows_with_time 4000 6000 exampleStore Hle)
    as (s & s' & H1 & H2 & _ & _ & _ & H6 & _).
  exists s, s'. repeat split; assumption.
Defined.

(** ** More on listing *)

Lemma filter_partition_perm {A : Type} (f : A -> bool) (l : list A) :
  Permutation (filter f l ++ filter (fun a => negb (f a)) l)%list l.
Proof.
  induction l as [| a r IH]; simpl; [constructor |].
  destruct (f a); simpl.
  - apply perm_skip, IH.
  - apply Permutation_sym, Permutation_cons_app, Permutation_sym, IH.
Qed.

Lemma getAllTasks_In (rx : RegexEngine) (f : Filters) (st : Store)
    (l : list Task) (t : Task) :
  result (getAllTasks rx f st) = Ok l ->
  In t l ->
  In t st /\ matchesQuery (withoutSearch (queryOf f)) t = true.
Proof.
  intros H Ht. apply getAllTasks_Ok_inv in H. destruct H as (p & -> & Hp).
  apply sortByCreatedAtDesc_In, filter_In in Ht.
  split; [tauto | apply Hp; tauto].
Qed.

(** X13: [getCompletedTasks] and [getPendingTasks] split the collection in
    two: both return a list, every task of the first is completed, every
    task of the second is not, and together the two lists hold exactly the
    tasks of the collection, each as often as it is stored. *)
Theorem completed_and_pending_split_the_collection :
  forall (rx : RegexEngine) (st : Store),
    exists done todo : list Task,
      result (getCompletedTasks rx st) = Ok done
      /\ result (getPendingTasks rx st) = Ok todo
      /\ (forall t, In t done -> isCompleted t = true)
      /\ (forall t, In t todo -> isCompleted t = false)
      /\ Permutation (done ++ todo)%list st
      /\ (List.length done + List.length todo = List.length st)%nat.
Proof.
  intros rx st. unfold getCompletedTasks, getPendingTasks.
  do 2 eexists.
  split; [apply getAllTasks_returns; reflexivity |].
  split; [apply getAllTasks_returns; reflexivity |].
  assert (Et : filter (matchesQuery (queryOf (mkFilters (Some true) None None))) st
               = filter isCompleted st).
  { apply filter_ext_eq. intro t. unfold matchesQuery. cbn.
    rewrite eqb_true_r, !andb_true_r. reflexivity. }
  assert (Ef : filter (matchesQuery (queryOf (mkFilters (Some false) None None))) st
               = filter (fun t => negb (isCompleted t)) st).
  { apply filter_ext_eq. intro t. unfold matchesQuery. cbn.
    rewrite eqb_false_r, !andb_true_r. reflexivity. }
  rewrite Et, Ef.
  assert (Hperm : Permutation
                    (sortByCreatedAtDesc (filter isCompleted st)
                     ++ sortByCreatedAtDesc (filter (fun t => negb (isCompleted t)) st))%list
                    st).
  { eapply perm_trans; [| apply (filter_partition_perm isCompleted st)].
    apply Permutation_app; apply Permutation_sym, sortByCreatedAtDesc_perm. }
  split; [| split; [| split]].
  - intros t Ht. apply sortByCreatedAtDesc_In, filter_In in Ht. tauto.
  - intros t Ht. apply sortByCreatedAtDesc_In, filter_In in Ht.
    apply negb_true_iff. tauto.
  - exact Hperm.
  - rewrite <- length_app. apply Permutation_length, Hperm.
Qed.

(** The example collection has one task of each kind. *)
Lemma completed_and_pending_split_the_collection_witness :
  exists done todo : list Task,
    result (getCompletedTasks exampleRegex exampleStore) = Ok done
    /\ result (getPendingTasks exampleRegex exampleStore) = Ok todo
    /\ (List.length done + List.length todo = 2)%nat.
Proof.
  destruct (completed_and_pending_split_the_collection exampleRegex exampleStore)
    as (done & todo & H1 & H2 & _ & _ & _ & H6).
  exists done, todo. repeat split; assumption.
Defined.

(** X14: [getTasksByPriority(p)] with a non-empty [p] returns exactly the
    stored tasks whose priority is [p]; with the empty string it returns
    every task, because the filter is applied only when truthy.  In any
    listing an empty [priority] or [search] string is the same as none. *)
Theorem getTasksByPriority_exact :
  forall (rx : RegexEngine) (p : string) (st : Store),
    (p <> "" ->
     exists l,
       result (getTasksByPriority rx p st) = Ok l
       /\ Permutation (filter (fun t => String.eqb (priority t) p) st) l
       /\ forall t, In t l <-> In t st /\ priority t = p)
    /\ (exists l, result (getTasksByPriority rx "" st) = Ok l /\ Permutation st l)
    /\ (forall (c : option bool) (s : option string),
          getAllTasks rx (mkFilters c (Some "") s) st = getAllTasks rx (mkFilters c None s) st)
    /\ (forall (c : option bool) (q : option string),
          getAllTasks rx (mkFilters c q (Some "")) st = getAllTasks rx (mkFilters c q None) st).
Proof.
  intros rx p st. split; [| split; [| split]].
  - intro Hp. unfold getTasksByPriority.
    eexists. split; [apply getAllTasks_returns; reflexivity |].
    assert (E : filter (matchesQuery (queryOf (mkFilters None (Some p) None))) st
                = filter (fun t => String.eqb (priority t) p) st).
    { apply filter_ext_eq. intro t. unfold matchesQuery, queryOf.
      cbn [f_isCompleted f_priority f_search truthyOptString].
      unfold truthyString.
      destruct (String.eqb p "") eqn:E; [apply String.eqb_eq in E; contradiction |].
      cbn. rewrite !andb_true_r. reflexivity. }
    rewrite E. split; [apply sortByCreatedAtDesc_perm |].
    intro t. rewrite sortByCreatedAtDesc_In, filter_In, String.eqb_eq. reflexivity.
  - unfold getTasksByPriority.
    eexists. split; [apply getAllTasks_returns; reflexivity |].
    rewrite filter_all by reflexivity. apply sortByCreatedAtDesc_perm.
  - intros c s. rewrite !getAllTasks_query. reflexivity.
  - intros c q. rewrite !getAllTasks_query. reflexivity.
Qed.

(** The high-priority tasks of the example collection: "Pay rent". *)
Lemma getTasksByPriority_exact_witness :
  exists l,
    result (getTasksByPriority exampleRegex "high" exampleStore) = Ok l
    /\ forall t, In t l <-> In t exampleStore /\ priority t = "high".
Proof.
  assert (Hp : "high" <> "") by discriminate.
  destruct (proj1 (getTasksByPriority_exact exampleRegex "high" exampleStore) Hp)
    as (l & H1 & _ & H3).
  exists l. split; assumption.
Defined.

Lemma matchesQuery_conjunction (c : option bool) (p s : option string) (t : Task) :
  matchesQuery (queryOf (mkFilters c p s)) t
  = (matchesQuery (queryOf (mkFilters c None None)) t
     && matchesQuery (queryOf (mkFilters None p None)) t
     && matchesQuery (queryOf (mkFilters None None s)) t)%bool.
Proof.
  unfold matchesQuery, queryOf.
  cbn [f_isCompleted f_priority f_search q_isCompleted q_priority q_search
       q_dueBefore truthyOptString].
  destruct c as [b |];
    destruct (truthyOptString p); destruct (truthyOptString s);
    cbn [q_isCompleted q_priority q_search q_dueBefore andb];
    rewrite ?andb_true_r; try reflexivity.
Qed.

(** X15: filters combine by conjunction.  For filters whose search string
    is a pattern of the modelled fragment, a task is in the listing for
    several filters exactly when it is in the listing for each filter
    alone; so adding a filter never adds a task, and every listed task is a
    stored one. *)
Theorem getAllTasks_filters_intersect :
  forall (rx : RegexEngine) (c : option bool) (p s : option string) (st : Store),
    filtersInFragment (mkFilters c p s) = true ->
    exists l lc lp ls : list Task,
      result (getAllTasks rx (mkFilters c p s) st) = Ok l
      /\ result (getAllTasks rx (mkFilters c None None) st) = Ok lc
      /\ result (getAllTasks rx (mkFilters None p None) st) = Ok lp
      /\ result (getAllTasks rx (mkFilters None None s) st) = Ok ls
      /\ (forall t, In t l <-> In t lc /\ In t lp /\ In t ls)
      /\ (forall t, In t l -> In t st)
      /\ (List.length l <= List.length st)%nat.
Proof.
  intros rx c p s st Hfrag.
  do 4 eexists.
  split; [apply getAllTasks_returns, Hfrag |].
  split; [apply getAllTasks_returns; reflexivity |].
  split; [apply getAllTasks_returns; reflexivity |].
  split; [apply getAllTasks_returns, Hfrag |].
  split; [| split].
  - intro t. rewrite !sortByCreatedAtDesc_In, !filter_In.
    rewrite (matchesQuery_conjunction c p s t), !andb_true_iff. tauto.
  - intros t Ht. apply sortByCreatedAtDesc_In, filter_In in Ht. tauto.
  - rewrite <- (Permutation_length (sortByCreatedAtDesc_perm _)).
    apply List.filter_length_le.
Qed.

(** Pending tasks of high priority matching "rent" in the example
    collection. *)
Lemma getAllTasks_filters_intersect_witness :
  exists l,
    result (getAllTasks exampleRegex (mkFilters (Some false) (Some "high") (Some "rent"))
                        exampleStore) = Ok l
    /\ forall t, In t l -> In t exampleStore.
Proof.
  destruct (getAllTasks_filters_intersect exampleRegex (Some false) (Some "high")
              (Some "rent")
              exampleStore eq_refl)
    as (l & lc & lp & ls & H & _ & _ & _ & _ & Hin & _).
  exists l. split; assumption.
Defined.

(** * The controllers *)

(** X16: what [POST /tasks] created, [GET /tasks/:id] returns.  The create
    controller either hands an error to [next] and leaves the collection as
    it was, or answers 201 with the created task; in that case the get
    controller, asked for the task's id, answers 200 with the same task. *)
Theorem createTaskController_then_getTaskByIdController :
  forall (Date_parse : string -> DateObj) (t_check : Z) (oid : string)
         (t_created t_valid t_save : Z) (body : CreateTaskRequest) (st : Store),
    isValidId oid = true ->
    let posted :=
      createTaskController Date_parse t_check oid t_created t_valid t_save body st in
    (exists e, posted = (Next e, st))
    \/ (exists task,
          fst posted
          = Respond 201 (mkApiResponse true (Some task) None
                           (Some "Task created successfully"))
          /\ getTaskByIdController oid (snd posted)
             = (Respond 200 (mkApiResponse true (Some task) None None), snd posted)).
Proof.
  intros Date_parse t_check oid t_created t_valid t_save body st Hid posted.
  subst posted. unfold createTaskController.
  destruct (createTask_cases Date_parse t_check oid t_created t_valid t_save body st)
    as [(e & He & Hst) | (_ & _ & Hfresh & ->)].
  - left. exists e. rewrite He, Hst. reflexivity.
  - right. cbn [result store fst snd]. eexists. split; [reflexivity |].
    unfold getTaskByIdController, getTaskById. rewrite Hid. cbn [negb result store].
    rewrite (Task_findById_app oid st _ Hfresh), Task_findById_head by apply sameObjectId_refl.
    reflexivity.
Qed.

(** Posting "Water plants" and getting it back. *)
Lemma createTaskController_then_getTaskByIdController_witness :
  exists task,
    getTaskByIdController idAbsent
      (snd (createTaskController exampleParse 3000 idAbsent 3000 3000 3000
              (mkCreate "Water plants" None None DueUndefined None) exampleStore))
    = (Respond 200 (mkApiResponse true (Some task) None None),
       snd (createTaskController exampleParse 3000 idAbsent 3000 3000 3000
              (mkCreate "Water plants" None None DueUndefined None) exampleStore))
    /\ title task = "Water plants".
Proof.
  destruct (createTaskController_then_getTaskByIdController exampleParse 3000
              idAbsent 3000 3000 3000
              (mkCreate "Water plants" None None DueUndefined None) exampleStore
              eq_refl) as [(e & He) | (task & Hpost & Hget)].
  - discriminate He.
  - exists task. split; [exact Hget |].
    cbn in Hpost. injection Hpost as <-. reflexivity.
Defined.

(** X17: deleting over HTTP succeeds once.  On a collection in which no
    two tasks share an ObjectId, [DELETE /tasks/:id] for an existing task,
    its id spelled in either case, answers 200 and removes one task; after
    that, getting the id answers 404 "Task not found", and deleting it
    again answers 404 and changes nothing. *)
Theorem deleteTaskController_succeeds_once :
  forall (id : string) (st : Store) (old : Task),
    isValidId id = true ->
    uniqueObjectIds st ->
    Task_findById id st = Some old ->
    let first := deleteTaskController id st in
    fst first
    = Respond 200 (mkApiResponse true None None (Some "Task deleted successfully"))
    /\ (List.length (snd first) + 1 = List.length st)%nat
    /\ (forall t, In t (snd first) <-> In t st /\ sameObjectId (_id t) id = false)
    /\ getTaskByIdController id (snd first) = (Respond 404 notFoundBody, snd first)
    /\ deleteTaskController id (snd first) = (Respond 404 notFoundBody, snd first).
Proof.
  intros id st old Hid Huniq Hfind first. subst first.
  destruct (Task_findById_split id st old Hfind) as (pre & post & -> & Hpre & Hold).
  assert (Hfirst : deleteTaskController id (pre ++ old :: post)%list
                   = (Respond 200 (mkApiResponse true None None
                                     (Some "Task deleted successfully")),
                      (pre ++ post)%list)).
  { unfold deleteTaskController, deleteTask. rewrite Hid. cbn [negb].
    rewrite (Task_findByIdAndDelete_split id pre post old Hpre Hold).
    reflexivity. }
  rewrite Hfirst. cbn [fst snd].
  pose proof (uniqueObjectIds_middle id pre post old Huniq Hold) as Hgone.
  split; [reflexivity |]. split; [rewrite !length_app; cbn; lia |].
  split; [| split].
  - intro t. split.
    + intro Hin. split.
      * apply in_app_or in Hin. apply in_or_app.
        destruct Hin as [H | H]; [left; exact H | right; right; exact H].
      * apply (Task_findById_None_In id _ t Hgone Hin).
    + intros [Hin Hne]. apply in_app_or in Hin. apply in_or_app.
      destruct Hin as [H | [H | H]]; [left; exact H | | right; exact H].
      subst t. congruence.
  - unfold getTaskByIdController, getTaskById. rewrite Hid. cbn [negb result store].
    rewrite Hgone. reflexivity.
  - unfold deleteTaskController, deleteTask. rewrite Hid. cbn [negb].
    rewrite (Task_findByIdAndDelete_absent id _ Hgone). reflexivity.
Qed.

(** Deleting "Pay rent" twice, its id spelled in upper case. *)
Lemma deleteTaskController_succeeds_once_witness :
  fst (deleteTaskController "64B7F0C2A1D3E4F5A6B7C8D9" exampleStore)
  = Respond 200 (mkApiResponse true None None (Some "Task deleted successfully"))
  /\ fst (deleteTaskController "64B7F0C2A1D3E4F5A6B7C8D9"
            (snd (deleteTaskController "64B7F0C2A1D3E4F5A6B7C8D9" exampleStore)))
     = Respond 404 notFoundBody.
Proof.
  destruct (deleteTaskController_succeeds_once "64B7F0C2A1D3E4F5A6B7C8D9"
              exampleStore taskA eq_refl exampleStore_uniqueObjectIds eq_refl)
    as (H1 & _ & _ & _ & H5).
  split; [exact H1 |]. rewrite H5. reflexivity.
Defined.

(** X18: [GET /tasks] answers every query whose search string is a pattern
    of the modelled fragment with status 200, the listing as data and a
    message that counts it, an empty listing included; it reads the
    [completed] parameter only when it is exactly "true" or "false", so any
    other value, like a missing one, asks for all tasks. *)
Theorem getAllTasksController_reply :
  forall (rx : RegexEngine) (q : ReqQuery) (st : Store),
    (filtersInFragment (filtersOfQuery q) = true ->
     exists tasks,
       result (getAllTasks rx (filtersOfQuery q) st) = Ok tasks
       /\ getAllTasksController rx q st
          = (Respond 200
               (mkApiResponse true (Some tasks) None
                  (Some ("Found " ++ showNat (List.length tasks) ++ " tasks"))),
             st))
    /\ (rq_completed q <> QString "true" ->
        rq_completed q <> QString "false" ->
        getAllTasksController rx q st
        = getAllTasksController rx
            (mkReqQuery QUndefined (rq_priority q) (rq_search q)) st).
Proof.
  intros rx q st. split.
  - intro Hfrag. eexists. split; [apply getAllTasks_returns, Hfrag |].
    unfold getAllTasksController.
    rewrite (getAllTasks_returns rx _ st Hfrag), getAllTasks_query. reflexivity.
  - intros Ht Hf. unfold getAllTasksController, filtersOfQuery.
    cbn [rq_completed rq_priority rq_search].
    replace (completedOf (rq_completed q)) with (@None bool); [reflexivity |].
    unfold completedOf. destruct (rq_completed q) as [| s |]; try reflexivity.
    destruct (String.eqb s "true") eqn:E1;
      [apply String.eqb_eq in E1; subst s; contradiction |].
    destruct (String.eqb s "false") eqn:E2;
      [apply String.eqb_eq in E2; subst s; contradiction |].
    reflexivity.
Qed.

(** [?completed=TRUE] lists both tasks of the example collection. *)
Lemma getAllTasksController_reply_witness :
  getAllTasksController exampleRegex (mkReqQuery (QString "TRUE") QUndefined QUndefined)
                        exampleStore
  = (Respond 200
       (mkApiResponse true (Some [taskB; taskA]) None (Some "Found 2 tasks")),
     exampleStore).
Proof.
  rewrite (proj2 (getAllTasksController_reply exampleRegex
                    (mkReqQuery (QString "TRUE") QUndefined QUndefined)
                    exampleStore));
    [reflexivity | discriminate | discriminate].
Defined.

(** * The client *)

(** ** From the client's filters to the server's query *)

(** X19: the filters survive the trip.  The query parameters
    [taskService.getTasks] builds from its filters are read back by the
    list controller as filters that constrain the store query in the same
    way, [isCompleted: false] included, so the controller answers with the
    listing of [getAllTasks] for the client's own filters; a call without
    filters, or with none set, sends no parameter at all. *)
Theorem getTasksParams_read_back :
  forall (rx : RegexEngine) (f : Filters) (st : Store),
    queryOf (filtersOfQuery (reqQueryOfParams (getTasksParams (Some f)))) = queryOf f
    /\ (forall l,
          result (getAllTasks rx f st) = Ok l ->
          getAllTasksController rx (reqQueryOfParams (getTasksParams (Some f))) st
          = (Respond 200
               (mkApiResponse true (Some l) None
                  (Some ("Found " ++ showNat (List.length l) ++ " tasks"))),
             st))
    /\ getTasksParams None = []
    /\ getTasksParams (Some noFilters) = [].
Proof.
  intros rx f st.
  assert (Hq : queryOf (filtersOfQuery (reqQueryOfParams (getTasksParams (Some f))))
               = queryOf f).
  { destruct f as [c p s]. unfold getTasksParams.
    cbn [f_isCompleted f_priority f_search].
    destruct c as [[|] |];
      destruct p as [p |]; cbn [truthyOptString];
      try destruct (truthyString p) eqn:Ep;
      destruct s as [s |]; cbn [truthyOptString];
      try destruct (truthyString s) eqn:Es;
      unfold queryOf; cbn; rewrite ?Ep, ?Es; reflexivity. }
  split; [exact Hq |]. split; [| split; reflexivity].
  intros l Hl. unfold getAllTasksController.
  rewrite getAllTasks_query, Hq, <- (getAllTasks_query rx f st), Hl.
  rewrite getAllTasks_query. reflexivity.
Qed.

(** Asking for the pending tasks sends [completed=false] and gets "Pay
    rent". *)
Lemma getTasksParams_read_back_witness :
  getTasksParams (Some (mkFilters (Some false) None None)) = [("completed", "false")]
  /\ getAllTasksController exampleRegex
       (reqQueryOfParams (getTasksParams (Some (mkFilters (Some false) None None))))
       exampleStore
     = (Respond 200
          (mkApiResponse true (Some [taskA]) None (Some "Found 1 tasks")),
        exampleStore).
Proof.
  split; [reflexivity |].
  apply (proj1 (proj2 (getTasksParams_read_back exampleRegex
                         (mkFilters (Some false) None None) exampleStore))).
  reflexivity.
Defined.

(** ** The task store *)

Lemma toggled_involutive (t : ClientTask) : toggled (toggled t) = t.
Proof. destruct t. unfold toggled. cbn. rewrite negb_involutive. reflexivity. Qed.

(** X20: the optimistic toggle undoes itself.  [toggleTaskOptimistic]
    flips the completion of the tasks with the given id and of no other,
    keeps every other field, the order and the ids of the list; applying
    its state update a second time, as the store does when the server
    refuses the change, restores the state exactly. *)
Theorem toggleTaskOptimistic_set_involutive :
  forall (id : string) (s : TaskState),
    toggleTaskOptimistic_set id (toggleTaskOptimistic_set id s) = s
    /\ map ct_id (ts_tasks (toggleTaskOptimistic_set id s)) = map ct_id (ts_tasks s)
    /\ forall (i : nat) (task : ClientTask),
         nth_error (ts_tasks s) i = Some task ->
         nth_error (ts_tasks (toggleTaskOptimistic_set id s)) i
         = Some (if String.eqb (ct_id task) id then toggled task else task).
Proof.
  intros id s. split; [| split].
  - destruct s as [tasks sel f stats loading err].
    unfold toggleTaskOptimistic_set, withTasks. cbn. f_equal.
    rewrite map_map. rewrite <- (map_id tasks) at 2.
    apply map_ext. intro t.
    destruct (String.eqb (ct_id t) id) eqn:E.
    + change (ct_id (toggled t)) with (ct_id t). rewrite E.
      apply toggled_involutive.
    + rewrite E. reflexivity.
  - unfold toggleTaskOptimistic_set. cbn. rewrite map_map.
    apply map_ext. intro t. destruct (String.eqb (ct_id t) id); reflexivity.
  - intros i task H. unfold toggleTaskOptimistic_set. cbn.
    rewrite nth_error_map, H. reflexivity.
Qed.

(** Toggling "Pay rent" twice in a state that lists both example tasks. *)
Lemma toggleTaskOptimistic_set_involutive_witness :
  nth_error (ts_tasks (toggleTaskOptimistic_set idA
                         (mkTaskState [clientTaskA; clientTaskB] [] noFilters
                                      None false None))) 0
  = Some (toggled clientTaskA).
Proof.
  apply (proj2 (proj2 (toggleTaskOptimistic_set_involutive idA
                         (mkTaskState [clientTaskA; clientTaskB] [] noFilters
                                      None false None)))
               0%nat clientTaskA).
  reflexivity.
Defined.

Lemma setHas_In (x : string) (s : list string) : setHas x s = true <-> In x s.
Proof.
  unfold setHas. rewrite existsb_exists. split.
  - intros (y & Hy & E). apply String.eqb_eq in E. subst y. exact Hy.
  - intro H. exists x. split; [exact H | apply String.eqb_refl].
Qed.

Lemma setAdd_NoDup (s : list string) (x : string) : NoDup s -> NoDup (setAdd s x).
Proof.
  intro H. unfold setAdd. destruct (setHas x s) eqn:E; [exact H |].
  apply NoDup_app; [exact H | repeat constructor; intros [] |].
  intros y Hy [<- | []].
  apply setHas_In in Hy. congruence.
Qed.

Lemma setAdd_In (s : list string) (x y : string) :
  In y (setAdd s x) <-> In y s \/ y = x.
Proof.
  unfold setAdd. destruct (setHas x s) eqn:E.
  - apply setHas_In in E. split; [tauto | intros [H | ->]; assumption].
  - rewrite in_app_iff. cbn. intuition congruence.
Qed.

Lemma fold_setAdd_NoDup (l acc : list string) :
  NoDup acc -> NoDup (fold_left setAdd l acc).
Proof.
  revert acc. induction l as [| x r IH]; intros acc H; cbn; [exact H |].
  apply IH, setAdd_NoDup, H.
Qed.

Lemma fold_setAdd_In (l acc : list string) (y : string) :
  In y (fold_left setAdd l acc) <-> In y acc \/ In y l.
Proof.
  revert acc. induction l as [| x r IH]; intro acc; cbn; [tauto |].
  rewrite IH, setAdd_In. intuition congruence.
Qed.

Lemma fold_setAdd_fresh (l acc : list string) :
  NoDup (acc ++ l) -> fold_left setAdd l acc = (acc ++ l)%list.
Proof.
  revert acc. induction l as [| x r IH]; intros acc H; cbn.
  - symmetry. apply app_nil_r.
  - assert (Hx : setHas x acc = false).
    { destruct (setHas x acc) eqn:E; [| reflexivity].
      apply setHas_In in E. apply NoDup_remove_2 in H.
      elim H. apply in_or_app. left. exact E. }
    unfold setAdd at 2. rewrite Hx.
    rewrite IH; rewrite <- app_assoc; [reflexivity | exact H].
Qed.

Lemma newSet_NoDup (l : list string) : NoDup (newSet l).
Proof. apply fold_setAdd_NoDup. constructor. Qed.

Lemma newSet_In (l : list string) (y : string) : In y (newSet l) <-> In y l.
Proof. unfold newSet. rewrite fold_setAdd_In. cbn. tauto. Qed.

Lemma newSet_fresh (l : list string) : NoDup l -> newSet l = l.
Proof. intro H. apply (fold_setAdd_fresh l []). exact H. Qed.

Lemma setDelete_In (x : string) (s : list string) (y : string) :
  In y (setDelete x s) <-> In y s /\ y <> x.
Proof.
  unfold setDelete. rewrite filter_In, negb_true_iff, String.eqb_neq. reflexivity.
Qed.

Lemma filter_all_keep {A : Type} (f : A -> bool) (l : list A) :
  (forall a, In a l -> f a = true) -> filter f l = l.
Proof.
  induction l as [| a r IH]; intro H; cbn; [reflexivity |].
  rewrite (H a (or_introl eq_refl)), IH; [reflexivity |].
  intros b Hb. apply H. right. exact Hb.
Qed.

(** X21: the selection behaves as a set.  After [selectTask(id)] the id is
    selected, everything selected before still is, and no id is held
    twice, so selecting an id again changes nothing; after
    [deselectTask(id)] the id is not selected and every other selection is
    kept; and deselecting an id that was just newly selected gives back the
    selection as it was. *)
Theorem selection_is_a_set :
  forall (id : string) (s : TaskState),
    let sel := ts_selectedTasks s in
    (NoDup (ts_selectedTasks (selectTask id s))
     /\ (forall x, In x (ts_selectedTasks (selectTask id s)) <-> In x sel \/ x = id)
     /\ selectTask id (selectTask id s) = selectTask id s)
    /\ (NoDup (ts_selectedTasks (deselectTask id s))
        /\ forall x, In x (ts_selectedTasks (deselectTask id s)) <-> In x sel /\ x <> id)
    /\ (NoDup sel -> ~ In id sel -> deselectTask id (selectTask id s) = s).
Proof.
  intros id s sel. subst sel. split; [| split].
  - unfold selectTask. cbn [ts_selectedTasks withSelection]. split; [| split].
    + apply newSet_NoDup.
    + intro x. rewrite newSet_In, in_app_iff. cbn. intuition congruence.
    + unfold withSelection. cbn. f_equal.
      assert (Hin : In id (newSet (ts_selectedTasks s ++ [id])))
        by (apply newSet_In, in_or_app; right; left; reflexivity).
      pose proof (newSet_NoDup (ts_selectedTasks s ++ [id])) as Hnd.
      set (cur := newSet (ts_selectedTasks s ++ [id])) in *.
      unfold newSet. rewrite fold_left_app. cbn [fold_left].
      fold (newSet cur). rewrite (newSet_fresh cur Hnd).
      unfold setAdd. apply setHas_In in Hin. rewrite Hin. reflexivity.
  - unfold deselectTask. cbn [ts_selectedTasks withSelection]. split.
    + unfold setDelete. apply NoDup_filter, newSet_NoDup.
    + intro x. rewrite setDelete_In, newSet_In. reflexivity.
  - intros Hnd Hnot. destruct s as [tasks sel f stats loading err].
    cbn [ts_selectedTasks] in *.
    unfold deselectTask, selectTask, withSelection.
    cbn [ts_tasks ts_selectedTasks ts_filters ts_stats ts_isLoading ts_error].
    f_equal.
    assert (Hnd' : NoDup (sel ++ [id])).
    { apply NoDup_app; [exact Hnd | repeat constructor; intros [] |].
      intros y Hy [<- | []]. contradiction. }
    rewrite (newSet_fresh _ Hnd'), (newSet_fresh _ Hnd').
    unfold setDelete. rewrite filter_app. cbn [filter].
    rewrite String.eqb_refl. cbn [negb]. rewrite app_nil_r.
    apply filter_all_keep. intros y Hy.
    apply negb_true_iff, String.eqb_neq. intros ->. contradiction.
Qed.

(** Selecting and deselecting in the state the store starts in. *)
Lemma selection_is_a_set_witness :
  deselectTask idA (selectTask idA initialTaskState) = initialTaskState.
Proof.
  apply (proj2 (proj2 (selection_is_a_set idA initialTaskState)));
    [constructor | intros []].
Defined.

(** X22: once the server has deleted a task, the store forgets it: no task
    with that id is left in the list and the id is no longer selected,
    while every other task and every other selection is kept; a state that
    held neither the task nor the selection only has its error cleared. *)
Theorem deleteTask_resolved_forgets :
  forall (id : string) (s : TaskState),
    let s' := deleteTask_resolved id s in
    (forall task, In task (ts_tasks s') <-> In task (ts_tasks s) /\ ct_id task <> id)
    /\ (forall x, In x (ts_selectedTasks s') <-> In x (ts_selectedTasks s) /\ x <> id)
    /\ NoDup (ts_selectedTasks s')
    /\ (List.length (ts_tasks s') <= List.length (ts_tasks s))%nat
    /\ ((forall task, In task (ts_tasks s) -> ct_id task <> id) ->
        NoDup (ts_selectedTasks s) ->
        ~ In id (ts_selectedTasks s) ->
        s' = mkTaskState (ts_tasks s) (ts_selectedTasks s) (ts_filters s)
                         (ts_stats s) (ts_isLoading s) None).
Proof.
  intros id s s'. subst s'. unfold deleteTask_resolved.
  cbn [ts_tasks ts_selectedTasks].
  split; [| split; [| split; [| split]]].
  - intro task. rewrite filter_In, negb_true_iff, String.eqb_neq. reflexivity.
  - intro x. rewrite newSet_In, filter_In, negb_true_iff, String.eqb_neq. reflexivity.
  - apply newSet_NoDup.
  - apply List.filter_length_le.
  - intros Htasks Hnd Hsel.
    rewrite (filter_all_keep _ (ts_tasks s)).
    + rewrite (filter_all_keep _ (ts_selectedTasks s)).
      * rewrite (newSet_fresh _ Hnd). reflexivity.
      * intros x Hx. apply negb_true_iff, String.eqb_neq. intros ->. contradiction.
    + intros task Htask. apply negb_true_iff, String.eqb_neq, Htasks, Htask.
Qed.

(** Deleting an id the empty initial state does not hold. *)
Lemma deleteTask_resolved_forgets_witness :
  deleteTask_resolved idA initialTaskState = initialTaskState.
Proof.
  apply (proj2 (proj2 (proj2 (proj2
           (deleteTask_resolved_forgets idA initialTaskState))))).
  - intros task [].
  - constructor.
  - intros [].
Defined.

(** X23: an answered update replaces and never inserts.  The task list
    keeps its length; at every position the task is the server's answer if
    its id is the updated one and is untouched otherwise; when no listed
    task has the id, for instance because the current filters hide it, the
    list is unchanged; the selection is never touched. *)
Theorem updateTask_resolved_replaces :
  forall (id : string) (updatedTask : ClientTask) (s : TaskState),
    let s' := updateTask_resolved id updatedTask s in
    List.length (ts_tasks s') = List.length (ts_tasks s)
    /\ (forall (i : nat) (task : ClientTask),
          nth_error (ts_tasks s) i = Some task ->
          nth_error (ts_tasks s') i
          = Some (if String.eqb (ct_id task) id then updatedTask else task))
    /\ ((forall task, In task (ts_tasks s) -> ct_id task <> id) ->
        ts_tasks s' = ts_tasks s)
    /\ ts_selectedTasks s' = ts_selectedTasks s
    /\ (ct_id updatedTask = id ->
        map ct_id (ts_tasks s') = map ct_id (ts_tasks s)).
Proof.
  intros id updatedTask s s'. subst s'. unfold updateTask_resolved.
  cbn [ts_tasks ts_selectedTasks].
  split; [apply length_map |]. split; [| split; [| split]].
  - intros i task H. rewrite nth_error_map, H. reflexivity.
  - intro Hnone. rewrite <- (map_id (ts_tasks s)) at 2.
    apply map_ext_in. intros task Htask.
    apply Hnone in Htask. apply String.eqb_neq in Htask. rewrite Htask. reflexivity.
  - reflexivity.
  - intro Hid. rewrite map_map. apply map_ext. intro task.
    destruct (String.eqb (ct_id task) id) eqn:E; [| reflexivity].
    apply String.eqb_eq in E. congruence.
Qed.

(** An answer for a task the list does not hold changes nothing. *)
Lemma updateTask_resolved_replaces_witness :
  ts_tasks (updateTask_resolved idA clientTaskA
              (mkTaskState [clientTaskB] [] noFilters None false None))
  = [clientTaskB].
Proof.
  apply (proj1 (proj2 (proj2 (updateTask_resolved_replaces idA clientTaskA
                                (mkTaskState [clientTaskB] [] noFilters None
                                             false None))))).
  intros task [<- | []]. discriminate.
Defined.

(** ** Views *)

Lemma Forall2_transfer {A B : Type} (R : A -> B -> Prop) (P : A -> Prop)
    (Q : B -> Prop) (l : list A) (l' : list B) :
  Forall2 R l l' ->
  (forall a, In a l -> P a) ->
  (forall a b, R a b -> P a -> Q b) ->
  forall b, In b l' -> Q b.
Proof.
  induction 1 as [| a b l l' Hab _ IH]; intros HP HQ x Hx; [destruct Hx |].
  destruct Hx as [<- | Hx].
  - apply (HQ a); [exact Hab | apply HP; left; reflexivity].
  - apply IH; [intros y Hy; apply HP; right; exact Hy | exact HQ | exact Hx].
Qed.

Lemma matchesQuery_keepsTask (Date_parse : string -> DateObj) (f : Filters)
    (t : Task) (c : ClientTask) :
  showsTask Date_parse t c ->
  matchesQuery (withoutSearch (queryOf f)) t = true ->
  keepsTask f c = true.
Proof.
  intros (Hc & Hp & _) Hm.
  unfold matchesQuery, withoutSearch, queryOf in Hm.
  cbn [q_isCompleted q_priority q_search q_dueBefore] in Hm.
  rewrite !andb_true_r in Hm.
  apply andb_true_iff in Hm. destruct Hm as [Hcompl Hprio].
  unfold keepsTask. rewrite Hc, Hp.
  destruct (f_isCompleted f) as [b |].
  - rewrite Hcompl. cbn [negb].
    destruct (truthyOptString (f_priority f)) eqn:Et; [| reflexivity].
    destruct (f_priority f) as [p |]; [| discriminate Et].
    cbn in Hprio |- *. rewrite Hprio. reflexivity.
  - destruct (truthyOptString (f_priority f)) eqn:Et; [| reflexivity].
    destruct (f_priority f) as [p |]; [| discriminate Et].
    cbn in Hprio |- *. rewrite Hprio. reflexivity.
Qed.

(** X24: the task list page hides nothing the server sent.  Whatever the
    filters, the search string included, when the client's tasks show the
    listing [getAllTasks] returned for them, filtering them again on the
    page with the same filters keeps every one of them, in the same order;
    and the server returns such a listing for every filter whose search
    string the store accepts as a regular expression. *)
Theorem filteredTasks_keeps_server_listing :
  forall (Date_parse : string -> DateObj) (rx : RegexEngine) (f : Filters)
         (st : Store),
    (filtersAccepted rx f = true -> exists l, result (getAllTasks rx f st) = Ok l)
    /\ forall (l : list Task) (shown : list ClientTask),
         result (getAllTasks rx f st) = Ok l ->
         Forall2 (showsTask Date_parse) l shown ->
         filteredTasks f shown = shown.
Proof.
  intros Date_parse rx f st. split; [apply getAllTasks_accepted |].
  intros l shown Hl Hshown.
  unfold filteredTasks. apply filter_all_keep.
  apply (Forall2_transfer (showsTask Date_parse)
           (fun t => matchesQuery (withoutSearch (queryOf f)) t = true)
           _ l shown Hshown).
  - intros t Ht. apply (getAllTasks_In rx f st l t Hl Ht).
  - intros t c. apply matchesQuery_keepsTask.
Qed.

(** The pending tasks of the example collection that match [rent|tax], a
    pattern beyond the fragment, as the page shows them. *)
Lemma filteredTasks_keeps_server_listing_witness :
  result (getAllTasks exampleRegex (mkFilters (Some false) None (Some "rent|tax"))
                      exampleStore)
  = Ok [taskA]
  /\ filteredTasks (mkFilters (Some false) None (Some "rent|tax")) [clientTaskA]
     = [clientTaskA].
Proof.
  split; [reflexivity |].
  apply (proj2 (filteredTasks_keeps_server_listing exampleClientParse exampleRegex
                  (mkFilters (Some false) None (Some "rent|tax")) exampleStore)
               [taskA]).
  - reflexivity.
  - constructor; [| constructor].
    split; [reflexivity |]. split; [reflexivity |].
    exists "1970-01-01T00:00:05.000Z".
    split; [reflexivity |]. split; [discriminate | reflexivity].
Defined.

Lemma cardIsOverdue_isOverdue (Date_parse : string -> DateObj) (now : Z)
    (t : Task) (c : ClientTask) :
  showsTask Date_parse t c -> cardIsOverdue Date_parse now c = isOverdue now t.
Proof.
  intros (Hc & _ & Hd). unfold cardIsOverdue, isOverdue. rewrite Hc.
  destruct (dueDate t) as [d |].
  - destruct Hd as (s & -> & Hs & Hparse). rewrite Hparse.
    unfold truthyString. apply String.eqb_neq in Hs. rewrite Hs. cbn.
    apply andb_comm.
  - rewrite Hd. cbn. rewrite andb_false_r. reflexivity.
Qed.

(** X25: the card and the statistics agree on what is overdue.  When a
    client task shows a stored task, the card flags it as overdue exactly
    when the overdue count of [getTaskStats], read at the same instant,
    counts it; so over cards that show the whole collection, the number of
    flagged cards is the [overdue] statistic, and a completed task or one
    without a due date is never flagged. *)
Theorem cardIsOverdue_agrees_with_stats :
  forall (Date_parse : string -> DateObj) (now : Z) (st : Store)
         (shown : list ClientTask),
    Forall2 (showsTask Date_parse) st shown ->
    (exists s,
        result (getTaskStats now st) = Ok s
        /\ overdue s
           = Z.of_nat (List.length (filter (cardIsOverdue Date_parse now) shown)))
    /\ Forall2 (fun t c => cardIsOverdue Date_parse now c = isOverdue now t) st shown
    /\ (forall c, In c shown ->
                  ct_isCompleted c = true \/ ct_dueDate c = None ->
                  cardIsOverdue Date_parse now c = false).
Proof.
  intros Date_parse now st shown Hshown. split; [| split].
  - rewrite getTaskStats_statsOf. cbn [result]. eexists. split; [reflexivity |].
    unfold statsOf. cbn [overdue]. unfold countIf. f_equal.
    induction Hshown as [| t c l l' Htc _ IH]; [reflexivity |].
    cbn [filter]. rewrite (cardIsOverdue_isOverdue Date_parse now t c Htc).
    destruct (isOverdue now t); cbn [List.length]; rewrite IH; reflexivity.
  - induction Hshown as [| t c l l' Htc _ IH]; constructor; [| exact IH].
    apply cardIsOverdue_isOverdue, Htc.
  - intros c _ [Hc | Hd]; unfold cardIsOverdue.
    + rewrite Hc. apply andb_false_r.
    + rewrite Hd. reflexivity.
Qed.

(** At 6000 the card of "Pay rent", due at 5000, is the one flagged card
    of the example collection, and the overdue statistic is one. *)
Lemma cardIsOverdue_agrees_with_stats_witness :
  exists s,
    result (getTaskStats 6000 exampleStore) = Ok s
    /\ overdue s
       = Z.of_nat (List.length (filter (cardIsOverdue exampleClientParse 6000)
                                       [clientTaskA; clientTaskB])).
Proof.
  apply (cardIsOverdue_agrees_with_stats exampleClientParse 6000 exampleStore
           [clientTaskA; clientTaskB]).
  constructor; [| constructor; [| constructor]].
  - split; [reflexivity |]. split; [reflexivity |].
    exists "1970-01-01T00:00:05.000Z".
    split; [reflexivity |]. split; [discriminate | reflexivity].
  - split; [reflexivity |]. split; reflexivity.
Defined.
